(** * fix_go_packages.py: package-name normalizer

    A shallow embedding of [src/fix_go_packages.py] and the properties of
    its specification.

    Modelling conventions.
    - A Python [str] is a list of Unicode code points ([text]).
    - The platform is POSIX: [os.path] is [posixpath] and [os.linesep] is
      a single line feed.
    - A file on disk is identified with its UTF-8 decoding (the decoded
      code points, carriage returns included); a file that cannot be
      opened or decoded carries the reason of the failure.
    - [print] always succeeds, and so does the encoding of what is
      written to a file: names and texts are taken to be encodable. One
      [message] stands for one call of [print], its fields being the
      values interpolated in the f-string.
    - A failure to write is a failure to open the file for writing.
    - Exceptions are explicit: a computation returns [inl e] when it
      raises [e]. *)

From Stdlib Require Import String Ascii.
From Stdlib Require Import List NArith Bool Lia Arith Permutation.
Import ListNotations.

(** ** Text *)

Definition text := list N.

Definition lit (s : string) : text := map N_of_ascii (list_ascii_of_string s).
Arguments lit s%_string.

Definition LF : N := 10.
Definition CR : N := 13.
Definition SLASH : N := 47.
Definition BACKSLASH : N := 92.
Definition UNDERSCORE : N := 95.

Definition text_eq_dec : forall a b : text, {a = b} + {a <> b} :=
  list_eq_dec N.eq_dec.

Definition text_eqb (a b : text) : bool :=
  if text_eq_dec a b then true else false.

Definition is_empty (s : text) : bool :=
  match s with [] => true | _ => false end.

(** [s.endswith(suffix)] *)
Definition endswith (s suffix : text) : bool :=
  (length suffix <=? length s)%nat &&
  text_eqb (skipn (length s - length suffix) s) suffix.

(** [s.startswith(prefix)] *)
Fixpoint startswith (s prefix : text) {struct prefix} : bool :=
  match prefix, s with
  | [], _ => true
  | p :: prefix', c :: s' => N.eqb c p && startswith s' prefix'
  | _ :: _, [] => false
  end.

(** The longest prefix whose characters satisfy [p], and the rest. *)
Fixpoint span (p : N -> bool) (s : text) : text * text :=
  match s with
  | [] => ([], [])
  | c :: s' =>
      if p c then let (a, b) := span p s' in (c :: a, b) else ([], s)
  end.

(** [s] is empty or starts with a character outside [p]. *)
Definition stops (p : N -> bool) (s : text) : bool :=
  match s with
  | [] => true
  | c :: _ => negb (p c)
  end.

(** ** Paths ([posixpath]) *)

(** [os.path.basename(p)]: what follows the last slash. *)
Definition basename (p : text) : text :=
  rev (fst (span (fun c => negb (N.eqb c SLASH)) (rev p))).

(** [os.path.join(a, b)] *)
Definition path_join (a b : text) : text :=
  if startswith b [SLASH] then b
  else if is_empty a || endswith a [SLASH] then a ++ b
  else a ++ SLASH :: b.

(** ** Text files

    Reading in text mode with the default [newline=None] turns every
    ["\r\n"] and every lone ["\r"] into ["\n"]; writing on POSIX
    translates nothing. *)
Fixpoint universal_newlines (s : text) : text :=
  match s with
  | [] => []
  | c :: r =>
      if N.eqb c CR then
        match r with
        | d :: r' =>
            if N.eqb d LF then LF :: universal_newlines r'
            else LF :: universal_newlines r
        | [] => [LF]
        end
      else c :: universal_newlines r
  end.

(** ** Character classes of [re] on [str] patterns *)

(** [\s]: [str.isspace], the white space of the Unicode database. *)
Definition is_space (c : N) : bool :=
  ((9 <=? c) && (c <=? 13) || (28 <=? c) && (c <=? 32)
   || (c =? 133) || (c =? 160) || (c =? 5760)
   || (8192 <=? c) && (c <=? 8202)
   || (c =? 8232) || (c =? 8233) || (c =? 8239) || (c =? 8287)
   || (c =? 12288))%N.

Definition ascii_alnum (c : N) : bool :=
  ((48 <=? c) && (c <=? 57) || (65 <=? c) && (c <=? 90)
   || (97 <=? c) && (c <=? 122))%N.

Definition ascii_letter (c : N) : bool :=
  ((65 <=? c) && (c <=? 90) || (97 <=? c) && (c <=? 122))%N.

Definition is_digit (c : N) : bool := ((48 <=? c) && (c <=? 57))%N.
Definition is_octdigit (c : N) : bool := ((48 <=? c) && (c <=? 55))%N.
Definition digit_val (c : N) : nat := N.to_nat (c - 48).

(** ** Replacement templates of [re.sub]

    [re._parser.parse_template] for a pattern with one unnamed group (as
    in CPython 3.12 and later). A template is a list of literal pieces
    and group references. *)

Inductive piece :=
| Literal (s : text)
| Group (index : nat).

Inductive template_error :=
| BadEscape
| MissingLt
| UnterminatedName
| MissingGroupName
| BadOrUnknownGroupName
| InvalidGroupReference
| OctalOutOfRange.

(** The number of groups of [PACKAGE_PATTERN]. *)
Definition pattern_groups : nat := 1.

Definition decimal_value (name : text) : nat :=
  fold_left (fun acc c => 10 * acc + digit_val c) name 0.

(** The group designated by [\g<name>]: a name that is not a decimal
    number is either malformed or unknown to the pattern, which has no
    named group. *)
Definition group_of_name (name : text) : template_error + nat :=
  if is_empty name then inl MissingGroupName
  else if forallb is_digit name then
    if (decimal_value name <=? pattern_groups)%nat
    then inr (decimal_value name) else inl InvalidGroupReference
  else inl BadOrUnknownGroupName.

(** The character of a one-letter escape, [ESCAPES] of [re._parser]. *)
Definition escape_char (c : N) : option N :=
  if N.eqb c 97 then Some 7%N        (* \a *)
  else if N.eqb c 98 then Some 8%N   (* \b *)
  else if N.eqb c 102 then Some 12%N (* \f *)
  else if N.eqb c 110 then Some 10%N (* \n *)
  else if N.eqb c 114 then Some 13%N (* \r *)
  else if N.eqb c 116 then Some 9%N  (* \t *)
  else if N.eqb c 118 then Some 11%N (* \v *)
  else if N.eqb c 92 then Some 92%N  (* \\ *)
  else None.

Definition add_piece (p : piece) (r : template_error + list piece)
  : template_error + list piece :=
  match r with
  | inl e => inl e
  | inr ps => inr (p :: ps)
  end.

Definition add_group (index : nat) (r : template_error + list piece)
  : template_error + list piece :=
  if (index <=? pattern_groups)%nat then add_piece (Group index) r
  else inl InvalidGroupReference.

(** A token of [re._parser.Tokenizer]: a character, or a backslash with
    the character after it. A backslash that ends the template is no
    token; [Dangling] marks the place where the tokenizer raises. *)
Inductive token :=
| Chr (c : N)
| Esc (c : N)
| Dangling.

Fixpoint tokenize (s : text) : list token :=
  match s with
  | [] => []
  | c :: r =>
      if N.eqb c BACKSLASH then
        match r with
        | [] => [Dangling]
        | e :: r' => Esc e :: tokenize r'
        end
      else Chr c :: tokenize r
  end.

(** The tokenizer is one token ahead of the parser: when it hands out a
    token it reads the next one, and raises if that is the dangling
    backslash. [dangles ts] tells that taking a token raises, [ts] being
    what follows the token. *)
Definition dangles (ts : list token) : bool :=
  match ts with
  | Dangling :: _ => true
  | _ => false
  end.

Definition token_text (t : token) : text :=
  match t with
  | Chr c => [c]
  | Esc c => [BACKSLASH; c]
  | Dangling => [BACKSLASH]
  end.

Definition is_chr (c : N) (t : token) : bool :=
  match t with
  | Chr d => N.eqb d c
  | _ => false
  end.

(** [inname] is [Some n] while the name of a [\g<...>] is being read
    ([getuntil]), [n] being what was read of it. *)
Fixpoint parse_tokens (inname : option text) (ts : list token)
  : template_error + list piece :=
  match ts with
  | [] =>
      match inname with
      | Some name =>
          if is_empty name then inl MissingGroupName else inl UnterminatedName
      | None => inr []
      end
  | t :: r =>
      if dangles r then inl BadEscape
      else
        match inname with
        | Some name =>
            if is_chr 62 (* > *) t then
              match group_of_name name with
              | inl e => inl e
              | inr i => add_piece (Group i) (parse_tokens None r)
              end
            else parse_tokens (Some (name ++ token_text t)) r
        | None =>
            match t with
            | Dangling => inl BadEscape
            | Chr c => add_piece (Literal [c]) (parse_tokens None r)
            | Esc e =>
                if N.eqb e 103 (* g *) then
                  match r with
                  | l :: r2 =>
                      if is_chr 60 (* < *) l then
                        if dangles r2 then inl BadEscape
                        else parse_tokens (Some []) r2
                      else inl MissingLt
                  | [] => inl MissingLt
                  end
                else if N.eqb e 48 (* 0 *) then
                  match r with
                  | Chr d1 :: r2 =>
                      if is_octdigit d1 then
                        if dangles r2 then inl BadEscape
                        else
                          match r2 with
                          | Chr d2 :: r3 =>
                              if is_octdigit d2 then
                                if dangles r3 then inl BadEscape
                                else
                                  add_piece
                                    (Literal [N.of_nat (8 * digit_val d1 + digit_val d2)])
                                    (parse_tokens None r3)
                              else
                                add_piece (Literal [N.of_nat (digit_val d1)])
                                  (parse_tokens None r2)
                          | _ =>
                              add_piece (Literal [N.of_nat (digit_val d1)])
                                (parse_tokens None r2)
                          end
                      else add_piece (Literal [0%N]) (parse_tokens None r)
                  | _ => add_piece (Literal [0%N]) (parse_tokens None r)
                  end
                else if is_digit e then
                  match r with
                  | Chr d1 :: r2 =>
                      if is_digit d1 then
                        if dangles r2 then inl BadEscape
                        else
                          match r2 with
                          | Chr d2 :: r3 =>
                              if is_octdigit e && is_octdigit d1 && is_octdigit d2 then
                                if dangles r3 then inl BadEscape
                                else
                                  let v := 64 * digit_val e + 8 * digit_val d1 + digit_val d2 in
                                  if (255 <? v)%nat then inl OctalOutOfRange
                                  else add_piece (Literal [N.of_nat v])
                                         (parse_tokens None r3)
                              else
                                add_group (10 * digit_val e + digit_val d1)
                                  (parse_tokens None r2)
                          | _ =>
                              add_group (10 * digit_val e + digit_val d1)
                                (parse_tokens None r2)
                          end
                      else add_group (digit_val e) (parse_tokens None r)
                  | _ => add_group (digit_val e) (parse_tokens None r)
                  end
                else
                  match escape_char e with
                  | Some x => add_piece (Literal [x]) (parse_tokens None r)
                  | None =>
                      if ascii_letter e then inl BadEscape
                      else add_piece (Literal [BACKSLASH; e])
                             (parse_tokens None r)
                  end
            end
        end
  end.

(** [re._parser.parse_template(source, pattern)] *)
Definition parse_template (s : text) : template_error + list piece :=
  if dangles (tokenize s) then inl BadEscape
  else parse_tokens None (tokenize s).

Section Regex.

(** The alphanumeric characters beyond ASCII ([str.isalnum]) are a table
    of the Unicode database of the interpreter. *)
Variable uni_alnum : N -> bool.

(** [\w]: [str.isalnum] or an underscore. *)
Definition is_word (c : N) : bool :=
  if (c <? 128)%N then ascii_alnum c || N.eqb c UNDERSCORE
  else uni_alnum c.

(** ** The pattern [^package\s+(\w+)] with [re.MULTILINE] *)

(** A match: the text before it, the white space after the keyword,
    group 1, and the text after the match. *)
Record rmatch := mkMatch {
  m_pre : text;
  m_ws : text;
  m_id : text;
  m_post : text
}.

Definition keyword : text := lit "package".

(** [m.group(0)] and [m.group(1)] *)
Definition group0 (m : rmatch) : text := keyword ++ m_ws m ++ m_id m.
Definition group1 (m : rmatch) : text := m_id m.

(** [\s+(\w+)] at the head of [s]: the white space is taken greedily, [k]
    characters at first, and given back one character at a time until a
    word follows. *)
Fixpoint spaces_then_word (k : nat) (s : text) : option (text * text * text) :=
  match k with
  | O => None
  | S k' =>
      let (id, post) := span is_word (skipn k s) in
      if is_empty id then spaces_then_word k' s
      else Some (firstn k s, id, post)
  end.

(** The pattern without its anchor, at the head of [s]. *)
Definition match_here (s : text) : option (text * text * text) :=
  if startswith s keyword then
    let r := skipn (length keyword) s in
    spaces_then_word (length (fst (span is_space r))) r
  else None.

(** [bol] tells whether [s] starts a line of the searched text. *)
Fixpoint search_from (bol : bool) (s : text) : option rmatch :=
  match (if bol then match_here s else None) with
  | Some (ws, id, post) => Some (mkMatch [] ws id post)
  | None =>
      match s with
      | [] => None
      | c :: s' =>
          match search_from (N.eqb c LF) s' with
          | Some m => Some (mkMatch (c :: m_pre m) (m_ws m) (m_id m) (m_post m))
          | None => None
          end
      end
  end.

(** [PACKAGE_PATTERN.search(content)] *)
Definition search (content : text) : option rmatch := search_from true content.

Definition expand_piece (m : rmatch) (p : piece) : text :=
  match p with
  | Literal s => s
  | Group 0 => group0 m
  | Group _ => group1 m
  end.

Definition expand (tpl : list piece) (m : rmatch) : text :=
  flat_map (expand_piece m) tpl.

(** [PACKAGE_PATTERN.sub(repl, content, count=1)] *)
Definition sub (repl content : text) : template_error + text :=
  match parse_template repl with
  | inl e => inl e
  | inr tpl =>
      match search content with
      | None => inr content
      | Some m => inr (m_pre m ++ expand tpl m ++ m_post m)
      end
  end.

End Regex.

(** ** The file system *)

(** A file: its decoded content, and why opening it fails, if it does
    ([str(e)] of the exception, for reading and for writing). *)
Record file := mkFile {
  f_data : text;
  f_read_error : option text;
  f_write_error : option text
}.

(** The files, by path. *)
Definition store := text -> file.

Definition update (fs : store) (path : text) (f : file) : store :=
  fun q => if text_eq_dec q path then f else fs q.

(** A directory as [os.walk] sees it: the names of its files and its
    sub-directories. *)
#[warnings="-register-all"]
Inductive dir :=
| Dir (filenames : list text) (subdirs : list (text * dir)).

(** [os.walk(top)], top-down: a directory, then its sub-directories; the
    directory names of each triple are left out, the script ignores
    them. *)
Fixpoint os_walk (top : text) (d : dir) : list (text * list text) :=
  match d with
  | Dir filenames subdirs =>
      (top, filenames) ::
      flat_map (fun entry => os_walk (path_join top (fst entry)) (snd entry))
        subdirs
  end.

(** ** Effects: files, console, exceptions *)

Inductive exn :=
| OSError (reason : text)
| ReError (e : template_error)
| UnicodeError (reason : text).

(** One value per [print] of the script. *)
Inductive message :=
| WouldUpdate (file_path current_package expected_package : text)
| Updated (file_path current_package expected_package : text)
| Skipped (file_path : text) (e : exn).

(** A computation reads and writes the files, prints, and either returns
    or raises. *)
Definition M (A : Type) : Type := store -> store * list message * (exn + A).

Definition ret {A} (a : A) : M A := fun fs => (fs, [], inr a).

Definition raise {A} (e : exn) : M A := fun fs => (fs, [], inl e).

Definition bind {A B} (c : M A) (k : A -> M B) : M B :=
  fun fs =>
    match c fs with
    | (fs1, out1, inl e) => (fs1, out1, inl e)
    | (fs1, out1, inr a) =>
        match k a fs1 with
        | (fs2, out2, r) => (fs2, out1 ++ out2, r)
        end
    end.

Declare Scope M_scope.
Delimit Scope M_scope with M.
Notation "x <- c ;; k" := (bind c (fun x => k))
  (at level 61, c at next level, right associativity) : M_scope.
Notation "c ;; k" := (bind c (fun _ => k))
  (at level 61, right associativity) : M_scope.
Open Scope M_scope.

(** [try: body except Exception as e: handler(e)] *)
Definition try_except (body : M unit) (handler : exn -> M unit) : M unit :=
  fun fs =>
    match body fs with
    | (fs1, out1, inl e) =>
        match handler e fs1 with
        | (fs2, out2, r) => (fs2, out1 ++ out2, r)
        end
    | r => r
    end.

Definition print (m : message) : M unit := fun fs => (fs, [m], inr tt).

(** [with open(path, "r", encoding="utf-8") as f: f.read()] *)
Definition read_file (path : text) : M text :=
  fun fs =>
    match f_read_error (fs path) with
    | Some reason => (fs, [], inl (OSError reason))
    | None => (fs, [], inr (universal_newlines (f_data (fs path))))
    end.

(** [with open(path, "w", encoding="utf-8") as f: f.write(s)] *)
Definition write_file (path : text) (s : text) : M unit :=
  fun fs =>
    match f_write_error (fs path) with
    | Some reason => (fs, [], inl (OSError reason))
    | None =>
        (update fs path (mkFile s (f_read_error (fs path)) None), [], inr tt)
    end.

(** [for x in l: body(x)] *)
Fixpoint for_each {A} (l : list A) (body : A -> M unit) : M unit :=
  match l with
  | [] => ret tt
  | x :: l' => body x ;; for_each l' body
  end.

(** ** The script *)

Section Normalizer.

Variable uni_alnum : N -> bool.

Definition go_ext : text := lit ".go".
Definition test_go_ext : text := lit "_test.go".
Definition test_suffix : text := lit "_test".

(** The replacement template, [f"package {expected_package}"]. *)
Definition replacement (expected_package : text) : text :=
  lit "package " ++ expected_package.

(** Lines 30 to 39. *)
Definition expected_package_of (folder_name : text)
  (is_test_file has_test_suffix : bool) : text :=
  if is_test_file then
    if has_test_suffix then folder_name ++ test_suffix
    else folder_name
  else folder_name.

(** The body of the [try], lines 19 to 50. *)
Definition try_body (file_path folder_name filename : text) (dry_run : bool)
  : M unit :=
  content <- read_file file_path ;;
  match search uni_alnum content with
  | None => ret tt
  | Some m =>
      let current_package := group1 m in
      let is_test_file := endswith filename test_go_ext in
      let has_test_suffix := endswith current_package test_suffix in
      let expected_package :=
        expected_package_of folder_name is_test_file has_test_suffix in
      if negb (text_eqb current_package expected_package) then
        if dry_run then
          print (WouldUpdate file_path current_package expected_package)
        else
          match sub uni_alnum (replacement expected_package) content with
          | inl e => raise (ReError e)
          | inr new_content =>
              write_file file_path new_content ;;
              print (Updated file_path current_package expected_package)
          end
      else ret tt
  end.

(** The body of the inner loop, lines 10 to 53. *)
Definition visit (dirpath filename : text) (dry_run : bool) : M unit :=
  if negb (endswith filename go_ext) then ret tt
  else
    let file_path := path_join dirpath filename in
    let folder_name := basename dirpath in
    if is_empty folder_name then ret tt
    else
      try_except (try_body file_path folder_name filename dry_run)
        (fun e => print (Skipped file_path e)).

(** The loops over what [os.walk] yields. *)
Definition walk_loop (walked : list (text * list text)) (dry_run : bool)
  : M unit :=
  for_each walked (fun entry =>
    for_each (snd entry) (fun filename => visit (fst entry) filename dry_run)).

(** [fix_package_names(root_dir, dry_run)], over the directory [tree]
    found at [root_dir]. *)
Definition fix_package_names (tree : dir) (root_dir : text) (dry_run : bool)
  : M unit :=
  walk_loop (os_walk root_dir tree) dry_run.

End Normalizer.

(** ** What the statements are about *)

(** The identifier a text declares: group 1 of the first match. *)
Definition declared (uni_alnum : N -> bool) (content : text) : option text :=
  option_map group1 (search uni_alnum content).

(** The text [read] returns for the file at [path]. *)
Definition content_of (fs : store) (path : text) : text :=
  universal_newlines (f_data (fs path)).

(** The file at [path] can be read. *)
Definition readable (fs : store) (path : text) : Prop :=
  f_read_error (fs path) = None.

(** The file at [path] can be opened for writing. *)
Definition writable (fs : store) (path : text) : Prop :=
  f_write_error (fs path) = None.

(** The file is one the walk works on: a Go source in a named folder. *)
Definition handled (dirpath filename : text) : Prop :=
  endswith filename go_ext = true /\ basename dirpath <> [].

Definition is_warning (m : message) : Prop :=
  match m with
  | Skipped _ _ => True
  | _ => False
  end.

(** The message [m] about the file [path] instead of its own. *)
Definition retarget (path : text) (m : message) : message :=
  match m with
  | WouldUpdate _ a b => WouldUpdate path a b
  | Updated _ a b => Updated path a b
  | Skipped _ e => Skipped path e
  end.

(** The files a walk visits, in order. *)
Definition visits (walked : list (text * list text)) : list (text * text) :=
  flat_map (fun entry => map (pair (fst entry)) (snd entry)) walked.

Definition path_of (v : text * text) : text := path_join (fst v) (snd v).

(** [\w] and [\s] have no character in common. *)
Definition classes_disjoint (uni_alnum : N -> bool) : Prop :=
  forall c, is_space c = true -> uni_alnum c = false.

(** The table of a database cut down to ASCII: enough to run the script
    on ASCII texts. *)
Definition ascii_only : N -> bool := fun _ => false.

(** The position after [pre] starts a line of a text, [bol] telling
    whether the text itself starts one: what [^] asks for. *)
Definition starts_line (bol : bool) (pre : text) : bool :=
  match rev pre with
  | [] => bol
  | c :: _ => N.eqb c LF
  end.

(** The head of [s] matches [\s+\w]. *)
Definition spaces_word_head (uni_alnum : N -> bool) (s : text) : bool :=
  negb (is_empty (fst (span is_space s))) &&
  match hd_error (snd (span is_space s)) with
  | Some c => is_word uni_alnum c
  | None => false
  end.

(** The pattern matches at the head of [s] only if [\s+\w] follows the
    keyword. *)
Definition matchable (uni_alnum : N -> bool) (s : text) : bool :=
  startswith s keyword &&
  spaces_word_head uni_alnum (skipn (length keyword) s).

(** A loop whose body never raises, as a fold: the files and the
    messages it leaves. *)
Fixpoint run_all {A} (body : A -> M unit) (l : list A) (fs : store)
  : store * list message :=
  match l with
  | [] => (fs, [])
  | x :: l' =>
      let r := body x fs in
      let r' := run_all body l' (fst (fst r)) in
      (fst r', snd (fst r) ++ snd r')
  end.

(** The visit of one file of a walk. *)
Definition visit_of (uni_alnum : N -> bool) (dry_run : bool) (v : text * text)
  : M unit :=
  visit uni_alnum (fst v) (snd v) dry_run.

(** A folder name that a rewritten declaration reads back as it was
    written, for the file [filename]: word characters only and, for a
    test file, no test suffix of its own. *)
Definition stable_name (uni_alnum : N -> bool) (folder_name filename : text)
  : Prop :=
  forallb (is_word uni_alnum) folder_name = true /\
  (endswith filename test_go_ext = true ->
   endswith folder_name test_suffix = false).

(** What the script expects the file [filename] of [dirpath] to declare,
    when it declares [current_package]. *)
Definition expected_for (dirpath filename current_package : text) : text :=
  expected_package_of (basename dirpath) (endswith filename test_go_ext)
    (endswith current_package test_suffix).

(** The file [fl], found at the path of [filename] in [dirpath], is
    left as it is by a visit in apply mode, which prints warnings at
    most. *)
Definition quiet (uni_alnum : N -> bool) (dirpath filename : text) (fl : file)
  : Prop :=
  forall fs, fs (path_join dirpath filename) = fl ->
  exists out,
    visit uni_alnum dirpath filename false fs = (fs, out, inr tt) /\
    Forall is_warning out.

(** What [visit] does, as a function of the file it finds. *)
Definition visit_result (uni_alnum : N -> bool) (dirpath filename : text)
  (dry_run : bool) (fs : store) : store * list message * (exn + unit) :=
  let file_path := path_join dirpath filename in
  let folder_name := basename dirpath in
  if negb (endswith filename go_ext) || is_empty folder_name then (fs, [], inr tt)
  else
    match f_read_error (fs file_path) with
    | Some reason => (fs, [Skipped file_path (OSError reason)], inr tt)
    | None =>
        let content := content_of fs file_path in
        match search uni_alnum content with
        | None => (fs, [], inr tt)
        | Some m =>
            let expected :=
              expected_package_of folder_name (endswith filename test_go_ext)
                (endswith (group1 m) test_suffix) in
            if text_eqb (group1 m) expected then (fs, [], inr tt)
            else if dry_run then
              (fs, [WouldUpdate file_path (group1 m) expected], inr tt)
            else
              match sub uni_alnum (replacement expected) content with
              | inl e => (fs, [Skipped file_path (ReError e)], inr tt)
              | inr new_content =>
                  match f_write_error (fs file_path) with
                  | Some reason =>
                      (fs, [Skipped file_path (OSError reason)], inr tt)
                  | None =>
                      (update fs file_path (mkFile new_content None None),
                       [Updated file_path (group1 m) expected], inr tt)
                  end
              end
        end
    end.

(** ** What the further properties are about *)

(** The path a message names. *)
Definition message_path (m : message) : text :=
  match m with
  | WouldUpdate p _ _ => p
  | Updated p _ _ => p
  | Skipped p _ => p
  end.

(** The message of apply mode for a message of preview mode. *)
Definition confirmed (m : message) : message :=
  match m with
  | WouldUpdate p a b => Updated p a b
  | _ => m
  end.

(** The file a visit leaves at the path of the file it visits, and the
    messages it prints, when it finds the file [fl] there. *)
Definition file_after (uni_alnum : N -> bool) (dirpath filename : text)
  (dry_run : bool) (fl : file) : file :=
  fst (fst (visit uni_alnum dirpath filename dry_run (fun _ => fl)))
    (path_join dirpath filename).

Definition lines_for (uni_alnum : N -> bool) (dirpath filename : text)
  (dry_run : bool) (fl : file) : list message :=
  snd (fst (visit uni_alnum dirpath filename dry_run (fun _ => fl))).

(** A name as a directory listing gives it: not empty, no separator. *)
Definition plain_name (name : text) : bool :=
  negb (is_empty name) && forallb (fun c => negb (N.eqb c SLASH)) name.

(** Every file and sub-directory of the tree has such a name. *)
Fixpoint plain_names (d : dir) : bool :=
  match d with
  | Dir filenames subdirs =>
      forallb plain_name filenames &&
      forallb (fun entry => plain_name (fst entry) && plain_names (snd entry))
        subdirs
  end.

(** No name occurs twice in the list. *)
Fixpoint distinct (l : list text) : bool :=
  match l with
  | [] => true
  | x :: l' => negb (existsb (text_eqb x) l') && distinct l'
  end.

(** No directory of the tree holds two entries of the same name. *)
Fixpoint distinct_names (d : dir) : bool :=
  match d with
  | Dir filenames subdirs =>
      distinct (filenames ++ map fst subdirs) &&
      forallb (fun entry => distinct_names (snd entry)) subdirs
  end.

(** What an update message of a walk over [walk] says: the file at
    [p] is listed, declares [a], a word, and is expected to declare [b],
    which is something else. *)
Definition reports_mismatch (uni_alnum : N -> bool) (walk : list (text * text))
  (p a b : text) : Prop :=
  a <> b /\ a <> [] /\ forallb (is_word uni_alnum) a = true /\
  exists v, In v walk /\ handled (fst v) (snd v) /\
            p = path_of v /\ b = expected_for (fst v) (snd v) a.

(** A message that a run in the given mode may print. *)
Definition sound_message (uni_alnum : N -> bool) (dry_run : bool)
  (walk : list (text * text)) (m : message) : Prop :=
  match m with
  | WouldUpdate p a b => dry_run = true /\ reports_mismatch uni_alnum walk p a b
  | Updated p a b => dry_run = false /\ reports_mismatch uni_alnum walk p a b
  | Skipped _ _ => True
  end.

(** ** Example trees *)

Definition no_file : file :=
  mkFile [] (Some (lit "No such file or directory"))
    (Some (lit "No such file or directory")).

Definition plain_file (data : text) : file := mkFile data None None.

Definition locked_file (data : text) : file :=
  mkFile data (Some (lit "Permission denied")) (Some (lit "Permission denied")).

Fixpoint store_of (l : list (text * file)) : store :=
  fun q =>
    match l with
    | [] => no_file
    | (p, f) :: l' => if text_eq_dec q p then f else store_of l' q
    end.

(** The project of the examples of the specification, with a file that
    cannot be read. *)
Definition demo_tree : dir :=
  Dir []
    [(lit "core", Dir [lit "core.go"; lit "locked.go"; lit "doc.go"] []);
     (lit "widgets", Dir [lit "widgets_test.go"; lit "helper_test.go"] [])].

Definition demo_store : store :=
  store_of
    [(lit "proj/core/core.go", plain_file (lit "package core" ++ [LF]));
     (lit "proj/core/locked.go", locked_file (lit "package cor" ++ [LF]));
     (lit "proj/core/doc.go", plain_file (lit "// Package core." ++ [LF]));
     (lit "proj/widgets/widgets_test.go",
      plain_file (lit "package widget_test" ++ [LF]));
     (lit "proj/widgets/helper_test.go",
      plain_file (lit "package  widget" ++ [LF] ++ lit "var x = 1" ++ [LF]))].

(** A folder with a hyphen in its name. *)
Definition hyphen_tree : dir := Dir [] [(lit "my-pkg", Dir [lit "a.go"] [])].

Definition hyphen_store : store :=
  store_of [(lit "proj/my-pkg/a.go", plain_file (lit "package foo" ++ [LF]))].

(** A test file in a folder whose name ends with the test suffix. *)
Definition suffix_tree : dir := Dir [] [(lit "e2e_test", Dir [lit "api_test.go"] [])].

Definition suffix_store : store :=
  store_of [(lit "proj/e2e_test/api_test.go", plain_file (lit "package e2e" ++ [LF]))].

(** A file with Windows line ends. *)
Definition crlf_store : store :=
  store_of
    [(lit "proj/bar/main.go",
      plain_file (lit "package foo" ++ [CR; LF] ++ lit "var x = 1" ++ [CR; LF]))].

(** A folder with a backslash in its name. *)
Definition backslash_store : store :=
  store_of [(lit "proj/a\1/main.go", plain_file (lit "package main" ++ [LF]))].

(** A file at the top of the default root, [.]. *)
Definition dot_store : store :=
  store_of [(lit "./main.go", plain_file (lit "package main" ++ [LF]))].

(** * The script in a world of links and failures

    The model above takes a path for the file it names, and lets every
    write that opens and every [print] complete. This second model of the
    same source drops these assumptions.
    - Two paths may name one file (a symbolic link, a hard link, [./x]
      and [x]): [resolve] gives the file a path names, and the disk maps
      files, not paths, to what they hold.
    - Whether a file opens depends on the path it is opened by.
    - [open(path, "w")] empties the file; the write that follows may
      raise (a text that cannot be encoded, a full disk), and the file
      then holds what the world says is left.
    - [print] may raise (a line that cannot be encoded, a closed
      console); nothing is printed then.
    The world does not change while the script runs, but for what the
    script writes. *)

Module World.

(** What a file holds: its decoded content, or why it cannot be
    decoded. *)
Record disk_file := mkDisk {
  d_data : text;
  d_decode_error : option exn
}.

(** The files, by the name [resolve] gives them. *)
Definition disk := text -> disk_file.

Definition update (d : disk) (i : text) (f : disk_file) : disk :=
  fun j => if text_eq_dec j i then f else d j.

Record world := mkWorld {
  (** The file a path names: links followed, one name for one file. *)
  resolve : text -> text;
  (** The exception of [open(path, "r")] or of [read], if one is raised
      for a reason other than the content of the file. *)
  read_denied : text -> option exn;
  (** The exception of [open(path, "w")], if it raises. *)
  write_denied : text -> option exn;
  (** The exception raised when the text is written to the file opened
      at the path, if one is, and what the file holds then. *)
  write_broken : text -> text -> option (exn * disk_file);
  (** The exception of [print], if it raises. *)
  print_broken : message -> option exn
}.

(** A computation reads and writes the disk, prints, and either returns
    or raises. *)
Definition W (A : Type) : Type := disk -> disk * list message * (exn + A).

Definition ret {A} (a : A) : W A := fun d => (d, [], inr a).

Definition raise {A} (e : exn) : W A := fun d => (d, [], inl e).

Definition bind {A B} (c : W A) (k : A -> W B) : W B :=
  fun d =>
    match c d with
    | (d1, out1, inl e) => (d1, out1, inl e)
    | (d1, out1, inr a) =>
        match k a d1 with
        | (d2, out2, r) => (d2, out1 ++ out2, r)
        end
    end.

Declare Scope W_scope.
Delimit Scope W_scope with W.
Notation "x <- c ;; k" := (bind c (fun x => k))
  (at level 61, c at next level, right associativity) : W_scope.
Notation "c ;; k" := (bind c (fun _ => k))
  (at level 61, right associativity) : W_scope.
Local Open Scope W_scope.

(** [try: body except Exception as e: handler(e)] *)
Definition try_except (body : W unit) (handler : exn -> W unit) : W unit :=
  fun d =>
    match body d with
    | (d1, out1, inl e) =>
        match handler e d1 with
        | (d2, out2, r) => (d2, out1 ++ out2, r)
        end
    | r => r
    end.

(** [for x in l: body(x)] *)
Fixpoint for_each {A} (l : list A) (body : A -> W unit) : W unit :=
  match l with
  | [] => ret tt
  | x :: l' => body x ;; for_each l' body
  end.

Section Script.

Variable w : world.
Variable uni_alnum : N -> bool.

Definition print (m : message) : W unit :=
  fun d =>
    match print_broken w m with
    | Some e => (d, [], inl e)
    | None => (d, [m], inr tt)
    end.

(** [with open(path, "r", encoding="utf-8") as f: f.read()] *)
Definition read_file (path : text) : W text :=
  fun d =>
    match read_denied w path with
    | Some e => (d, [], inl e)
    | None =>
        match d_decode_error (d (resolve w path)) with
        | Some e => (d, [], inl e)
        | None => (d, [], inr (universal_newlines (d_data (d (resolve w path)))))
        end
    end.

(** [open(path, "w", encoding="utf-8")]: the file is emptied. *)
Definition open_for_writing (path : text) : W unit :=
  fun d =>
    match write_denied w path with
    | Some e => (d, [], inl e)
    | None => (update d (resolve w path) (mkDisk [] None), [], inr tt)
    end.

(** [f.write(s)] and the end of the [with] block. *)
Definition write_text (path : text) (s : text) : W unit :=
  fun d =>
    match write_broken w path s with
    | Some (e, rest) => (update d (resolve w path) rest, [], inl e)
    | None => (update d (resolve w path) (mkDisk s None), [], inr tt)
    end.

(** [with open(path, "w", encoding="utf-8") as f: f.write(s)] *)
Definition write_file (path : text) (s : text) : W unit :=
  open_for_writing path ;; write_text path s.

(** The body of the [try], lines 19 to 50. *)
Definition try_body (file_path folder_name filename : text) (dry_run : bool)
  : W unit :=
  content <- read_file file_path ;;
  match search uni_alnum content with
  | None => ret tt
  | Some m =>
      let current_package := group1 m in
      let is_test_file := endswith filename test_go_ext in
      let has_test_suffix := endswith current_package test_suffix in
      let expected_package :=
        expected_package_of folder_name is_test_file has_test_suffix in
      if negb (text_eqb current_package expected_package) then
        if dry_run then
          print (WouldUpdate file_path current_package expected_package)
        else
          match sub uni_alnum (replacement expected_package) content with
          | inl e => raise (ReError e)
          | inr new_content =>
              write_file file_path new_content ;;
              print (Updated file_path current_package expected_package)
          end
      else ret tt
  end.

(** The body of the inner loop, lines 10 to 53. The [print] of the
    handler is outside the [try]: what it raises leaves the loop. *)
Definition visit (dirpath filename : text) (dry_run : bool) : W unit :=
  if negb (endswith filename go_ext) then ret tt
  else
    let file_path := path_join dirpath filename in
    let folder_name := basename dirpath in
    if is_empty folder_name then ret tt
    else
      try_except (try_body file_path folder_name filename dry_run)
        (fun e => print (Skipped file_path e)).

(** The loops over what [os.walk] yields. *)
Definition walk_loop (walked : list (text * list text)) (dry_run : bool)
  : W unit :=
  for_each walked (fun entry =>
    for_each (snd entry) (fun filename => visit (fst entry) filename dry_run)).

(** [fix_package_names(root_dir, dry_run)], over the directory [tree]
    found at [root_dir]. *)
Definition fix_package_names (tree : dir) (root_dir : text) (dry_run : bool)
  : W unit :=
  walk_loop (os_walk root_dir tree) dry_run.

(** ** What the statements are about *)

(** The text [read] returns for the file [i]. *)
Definition content_of (d : disk) (i : text) : text :=
  universal_newlines (d_data (d i)).

(** The file at [path] can be read. *)
Definition readable (d : disk) (path : text) : Prop :=
  read_denied w path = None /\ d_decode_error (d (resolve w path)) = None.

(** The text of a rewrite: the text read, with its first match [m]
    replaced. *)
Definition rewritten (dirpath filename : text) (m : rmatch) : text :=
  m_pre m ++ replacement (expected_for dirpath filename (group1 m))
  ++ m_post m.

(** What a visit in apply mode writes to the file of the path of
    [filename] in [dirpath], when the file holds [fl], gets there. *)
Definition write_completes (dirpath filename : text) (fl : disk_file) : Prop :=
  forall m, search uni_alnum (universal_newlines (d_data fl)) = Some m ->
  write_broken w (path_join dirpath filename) (rewritten dirpath filename m)
  = None.

(** The visit of one file of a walk, and of the files of a list. *)
Definition visit_of (dry_run : bool) (v : text * text) : W unit :=
  visit (fst v) (snd v) dry_run.

Definition run (dry_run : bool) (l : list (text * text)) : W unit :=
  for_each l (visit_of dry_run).

(** The handler of line 53, run on the disk [d]. *)
Definition warn (file_path : text) (e : exn) (d : disk)
  : disk * list message * (exn + unit) :=
  match print_broken w (Skipped file_path e) with
  | Some e' => (d, [], inl e')
  | None => (d, [Skipped file_path e], inr tt)
  end.

(** What [visit] does, as a function of what it finds. *)
Definition visit_result (dirpath filename : text) (dry_run : bool) (d : disk)
  : disk * list message * (exn + unit) :=
  let file_path := path_join dirpath filename in
  let folder_name := basename dirpath in
  let i := resolve w file_path in
  if negb (endswith filename go_ext) || is_empty folder_name then (d, [], inr tt)
  else
    match read_denied w file_path with
    | Some e => warn file_path e d
    | None =>
        match d_decode_error (d i) with
        | Some e => warn file_path e d
        | None =>
            let content := content_of d i in
            match search uni_alnum content with
            | None => (d, [], inr tt)
            | Some m =>
                let expected :=
                  expected_package_of folder_name (endswith filename test_go_ext)
                    (endswith (group1 m) test_suffix) in
                if text_eqb (group1 m) expected then (d, [], inr tt)
                else if dry_run then
                  match print_broken w (WouldUpdate file_path (group1 m) expected) with
                  | Some e => warn file_path e d
                  | None =>
                      (d, [WouldUpdate file_path (group1 m) expected], inr tt)
                  end
                else
                  match sub uni_alnum (replacement expected) content with
                  | inl e => warn file_path (ReError e) d
                  | inr new_content =>
                      match write_denied w file_path with
                      | Some e => warn file_path e d
                      | None =>
                          let d0 := update d i (mkDisk [] None) in
                          match write_broken w file_path new_content with
                          | Some (e, rest) => warn file_path e (update d0 i rest)
                          | None =>
                              let d1 := update d0 i (mkDisk new_content None) in
                              match print_broken w
                                      (Updated file_path (group1 m) expected) with
                              | Some e => warn file_path e d1
                              | None =>
                                  (d1, [Updated file_path (group1 m) expected],
                                   inr tt)
                              end
                          end
                      end
                  end
            end
        end
    end.

(** What a visit leaves in the file it visits, what it prints and how
    it ends, when it finds [fl] in the file. *)
Definition file_after (dirpath filename : text) (dry_run : bool)
  (fl : disk_file) : disk_file :=
  fst (fst (visit dirpath filename dry_run (fun _ => fl)))
    (resolve w (path_join dirpath filename)).

Definition lines_for (dirpath filename : text) (dry_run : bool)
  (fl : disk_file) : list message :=
  snd (fst (visit dirpath filename dry_run (fun _ => fl))).

Definition end_of (dirpath filename : text) (dry_run : bool)
  (fl : disk_file) : exn + unit :=
  snd (visit dirpath filename dry_run (fun _ => fl)).

(** Whether the walk works on the file: a Go source in a named folder. *)
Definition worked_on (v : text * text) : bool :=
  endswith (snd v) go_ext && negb (is_empty (basename (fst v))).

(** The files the visits of a list work on, one for each visit that
    works on a file. *)
Definition targets (l : list (text * text)) : list text :=
  map (fun v => resolve w (path_of v)) (filter worked_on l).

(** The file [fl], found by the path of [filename] in [dirpath], is left
    as it is by a visit in apply mode, which prints warnings at most. *)
Definition quiet (dirpath filename : text) (fl : disk_file) : Prop :=
  forall d, d (resolve w (path_join dirpath filename)) = fl ->
  exists out r,
    visit dirpath filename false d = (d, out, r) /\ Forall is_warning out.

End Script.

(** ** Example worlds *)

(** No code point is a surrogate: the text can be encoded in UTF-8. *)
Definition encodable (s : text) : bool :=
  forallb (fun c => negb ((55296 <=? c) && (c <=? 57343))%N) s.

Definition message_encodable (m : message) : bool :=
  match m with
  | WouldUpdate p a b => encodable p && encodable a && encodable b
  | Updated p a b => encodable p && encodable a && encodable b
  | Skipped p _ => encodable p
  end.

Definition permission_denied : exn := OSError (lit "Permission denied").
Definition cannot_encode : exn :=
  UnicodeError (lit "surrogates not allowed").

Definition among (l : list text) (p : text) : bool := existsb (text_eqb p) l.

(** A world without links, with a console and files in strict UTF-8,
    where the paths of [unreadable] do not open for reading and those of
    [read_only] do not open for writing. *)
Definition utf8_world (unreadable read_only : list text) : world :=
  mkWorld
    (fun p => p)
    (fun p => if among unreadable p then Some permission_denied else None)
    (fun p => if among read_only p then Some permission_denied else None)
    (fun _ s => if encodable s then None
                else Some (cannot_encode, mkDisk [] None))
    (fun m => if message_encodable m then None else Some cannot_encode).

(** The same world where the paths of a list are links to a file. *)
Definition linked_world (links : list (text * text)) : world :=
  mkWorld
    (fun p =>
       match find (fun l => text_eqb (fst l) p) links with
       | Some l => snd l
       | None => p
       end)
    (fun _ => None) (fun _ => None)
    (fun _ s => if encodable s then None
                else Some (cannot_encode, mkDisk [] None))
    (fun m => if message_encodable m then None else Some cannot_encode).

Fixpoint disk_of (l : list (text * text)) : disk :=
  fun i =>
    match l with
    | [] => mkDisk [] None
    | (p, data) :: l' => if text_eq_dec i p then mkDisk data None else disk_of l' i
    end.

(** The project of the examples of the specification, where [locked.go]
    does not open. *)
Definition demo_world : world := utf8_world [lit "proj/core/locked.go"] [].

Definition demo_disk : disk :=
  disk_of
    [(lit "proj/core/core.go", lit "package core" ++ [LF]);
     (lit "proj/core/locked.go", lit "package cor" ++ [LF]);
     (lit "proj/core/doc.go", lit "// Package core." ++ [LF]);
     (lit "proj/widgets/widgets_test.go", lit "package widget_test" ++ [LF]);
     (lit "proj/widgets/helper_test.go",
      lit "package  widget" ++ [LF] ++ lit "var x = 1" ++ [LF])].

(** A folder whose name is not UTF-8 on disk: [os.walk] gives the byte
    that cannot be decoded as a lone surrogate, which cannot be encoded.
    The first file of the folder does not open. *)
Definition odd_folder : text := lit "caf" ++ [56553%N].

Definition odd_tree : dir :=
  Dir [] [(odd_folder, Dir [lit "a.go"; lit "b.go"] [])].

Definition odd_world : world :=
  utf8_world [lit "proj/" ++ odd_folder ++ lit "/a.go"] [].

Definition odd_disk : disk :=
  disk_of
    [(lit "proj/" ++ odd_folder ++ lit "/a.go", lit "package main" ++ [LF]);
     (lit "proj/" ++ odd_folder ++ lit "/b.go", lit "package main" ++ [LF])].

(** One file under two names, in two folders. *)
Definition twin_tree : dir :=
  Dir [] [(lit "a", Dir [lit "x.go"] []); (lit "b", Dir [lit "x.go"] [])].

Definition twin_world : world :=
  linked_world [(lit "proj/b/x.go", lit "proj/a/x.go")].

Definition twin_disk : disk :=
  disk_of [(lit "proj/a/x.go", lit "package a" ++ [LF])].

(** A file that opens for reading only, and the same file in a world
    where it opens for writing too. *)
Definition read_only_world : world := utf8_world [] [lit "proj/bar/main.go"].

Definition open_world : world := utf8_world [] [].

Definition bar_disk : disk :=
  disk_of [(lit "proj/bar/main.go", lit "package foo" ++ [LF])].

(** A project with files at three depths. *)
Definition nested_tree : dir :=
  Dir [lit "main.go"]
    [(lit "core", Dir [lit "core.go"] [(lit "deep", Dir [lit "deep.go"] [])])].

Definition nested_disk : disk :=
  disk_of
    [(lit "proj/main.go", lit "package main" ++ [LF]);
     (lit "proj/core/core.go", lit "package cor" ++ [LF]);
     (lit "proj/core/deep/deep.go", lit "package shallow" ++ [LF])].

End World.

(** * Proofs *)

(** Case analysis on everything the goal matches on. *)
Ltac split_matches :=
  repeat match goal with
         | |- context [match ?x with _ => _ end] => destruct x
         end.

(** ** The script, case by case *)

Lemma visit_eq uni_alnum dirpath filename dry_run fs :
  visit uni_alnum dirpath filename dry_run fs
  = visit_result uni_alnum dirpath filename dry_run fs.
Proof.
  unfold visit, visit_result.
  destruct (endswith filename go_ext); simpl; [|reflexivity].
  destruct (is_empty (basename dirpath)); [reflexivity|].
  unfold try_except, try_body, bind, read_file, content_of.
  destruct (f_read_error (fs (path_join dirpath filename))) eqn:Hr;
    [reflexivity|].
  destruct (search uni_alnum _) as [m|]; [|reflexivity].
  destruct (text_eqb (group1 m) _); simpl; [reflexivity|].
  destruct dry_run; [reflexivity|].
  destruct (sub uni_alnum _ _) as [e|new_content]; [reflexivity|].
  unfold bind, write_file.
  destruct (f_write_error (fs (path_join dirpath filename)));
    [reflexivity|].
  simpl. rewrite Hr. reflexivity.
Qed.

(** ** Texts *)

Lemma text_eqb_eq (a b : text) : text_eqb a b = true <-> a = b.
Proof.
  unfold text_eqb. destruct (text_eq_dec a b); split; congruence.
Qed.

Lemma text_eqb_neq (a b : text) : text_eqb a b = false <-> a <> b.
Proof.
  unfold text_eqb. destruct (text_eq_dec a b); split; congruence.
Qed.

Lemma text_eqb_refl (a : text) : text_eqb a a = true.
Proof. apply text_eqb_eq. reflexivity. Qed.

Lemma is_empty_nil (s : text) : is_empty s = true <-> s = [].
Proof. destruct s; simpl; split; congruence. Qed.

Lemma is_empty_false (s : text) : is_empty s = false <-> s <> [].
Proof. destruct s; simpl; split; congruence. Qed.

Lemma endswith_app (a suffix : text) : endswith (a ++ suffix) suffix = true.
Proof.
  unfold endswith. rewrite length_app.
  replace (length a + length suffix - length suffix) with (length a) by lia.
  rewrite skipn_app, skipn_all, Nat.sub_diag. simpl.
  rewrite text_eqb_refl, andb_true_r.
  apply Nat.leb_le. lia.
Qed.

Lemma startswith_app (k s : text) : startswith (k ++ s) k = true.
Proof.
  induction k as [|c k IH]; simpl; [reflexivity|].
  rewrite N.eqb_refl. exact IH.
Qed.

Lemma startswith_split (s k : text) :
  startswith s k = true -> s = k ++ skipn (length k) s.
Proof.
  revert s. induction k as [|p k IH]; intros [|c s] H; simpl in *;
    try reflexivity; try discriminate.
  apply andb_true_iff in H. destruct H as [Hc Hs].
  apply N.eqb_eq in Hc. subst. f_equal. apply IH. exact Hs.
Qed.

(** A prefix longer than [k] decides [startswith]. *)
Lemma startswith_long (u z z' k : text) :
  length k <= length u -> startswith (u ++ z) k = startswith (u ++ z') k.
Proof.
  revert u. induction k as [|p k IH]; intros [|c u] H; simpl in *;
    try reflexivity; try lia.
  f_equal. apply IH. lia.
Qed.

(** ** [span] *)

Lemma span_app p s : fst (span p s) ++ snd (span p s) = s.
Proof.
  induction s as [|c s IH]; simpl; [reflexivity|].
  destruct (p c); [|reflexivity].
  destruct (span p s) as [a b]. simpl in *. congruence.
Qed.

Lemma span_fst_all p s : forallb p (fst (span p s)) = true.
Proof.
  induction s as [|c s IH]; simpl; [reflexivity|].
  destruct (p c) eqn:Hc; [|reflexivity].
  destruct (span p s) as [a b]. simpl in *. rewrite Hc. exact IH.
Qed.

Lemma span_snd_stops p s : stops p (snd (span p s)) = true.
Proof.
  induction s as [|c s IH]; simpl; [reflexivity|].
  destruct (p c) eqn:Hc.
  - destruct (span p s) as [a b]. exact IH.
  - simpl. rewrite Hc. reflexivity.
Qed.

Lemma span_exact p a b :
  forallb p a = true -> stops p b = true -> span p (a ++ b) = (a, b).
Proof.
  intros Ha Hb. induction a as [|c a IH]; simpl in *.
  - destruct b as [|d b]; [reflexivity|]. simpl in *.
    apply negb_true_iff in Hb. rewrite Hb. reflexivity.
  - apply andb_true_iff in Ha. destruct Ha as [Hc Ha].
    rewrite Hc, (IH Ha). reflexivity.
Qed.

(** What lies after a character outside [p] changes neither the prefix
    that [span] takes nor the character it stops at. *)
Lemma span_fst_indep p w x y y' :
  p x = false ->
  fst (span p (w ++ x :: y)) = fst (span p (w ++ x :: y')).
Proof.
  intros Hx. induction w as [|c w IH]; simpl.
  - rewrite Hx. reflexivity.
  - destruct (p c); [|reflexivity].
    destruct (span p (w ++ x :: y)), (span p (w ++ x :: y')).
    simpl in *. congruence.
Qed.

Lemma span_snd_head_indep p w x y y' :
  p x = false ->
  hd_error (snd (span p (w ++ x :: y))) = hd_error (snd (span p (w ++ x :: y'))).
Proof.
  intros Hx. induction w as [|c w IH]; simpl.
  - rewrite Hx. reflexivity.
  - destruct (p c); [|reflexivity].
    destruct (span p (w ++ x :: y)), (span p (w ++ x :: y')).
    simpl in *. exact IH.
Qed.

(** ** Universal newlines *)

Lemma universal_newlines_no_cr s : ~ In CR s -> universal_newlines s = s.
Proof.
  induction s as [|c s IH]; simpl; intros H; [reflexivity|].
  destruct (N.eqb_spec c CR) as [->|_]; [tauto|].
  f_equal. apply IH. tauto.
Qed.

Lemma universal_newlines_cr_lf r :
  universal_newlines (CR :: LF :: r) = LF :: universal_newlines r.
Proof. reflexivity. Qed.

Lemma universal_newlines_cr d r :
  d <> LF -> universal_newlines (CR :: d :: r) = LF :: universal_newlines (d :: r).
Proof.
  intros H. apply N.eqb_neq in H.
  change (universal_newlines (CR :: d :: r))
    with (if N.eqb d LF then LF :: universal_newlines r
          else LF :: universal_newlines (d :: r)).
  rewrite H. reflexivity.
Qed.

Lemma universal_newlines_other c r :
  c <> CR -> universal_newlines (c :: r) = c :: universal_newlines r.
Proof.
  intros H. apply N.eqb_neq in H. simpl. rewrite H. reflexivity.
Qed.

Lemma universal_newlines_clean_bounded n :
  forall s, length s <= n -> ~ In CR (universal_newlines s).
Proof.
  induction n as [|n IH]; intros [|c s] Hlen; simpl in Hlen;
    try (simpl; tauto); try lia.
  destruct (N.eq_dec c CR) as [->|Hc].
  - destruct s as [|d s]; [simpl; unfold LF, CR; intros [H|[]]; discriminate|].
    destruct (N.eq_dec d LF) as [->|Hd].
    + rewrite universal_newlines_cr_lf. intros [H|H]; [discriminate|].
      revert H. apply IH. simpl in *. lia.
    + rewrite (universal_newlines_cr d s Hd). intros [H|H]; [discriminate|].
      revert H. apply IH. simpl in *. lia.
  - rewrite (universal_newlines_other c s Hc). intros [H|H]; [congruence|].
    revert H. apply IH. lia.
Qed.

Lemma universal_newlines_clean s : ~ In CR (universal_newlines s).
Proof. apply universal_newlines_clean_bounded with (n := length s). apply Nat.le_refl. Qed.

(** ** Paths *)

Lemma span_no_stop p s :
  forallb p s = true -> span p s = (s, []).
Proof.
  intros H. rewrite <- (app_nil_r s) at 1. apply span_exact; auto.
Qed.

Lemma basename_app_slash a name :
  ~ In SLASH name -> basename (a ++ SLASH :: name) = name.
Proof.
  intros Hn. unfold basename.
  rewrite rev_app_distr. simpl. rewrite <- app_assoc. simpl.
  rewrite span_exact.
  - simpl. apply rev_involutive.
  - apply forallb_forall. intros c Hc. apply in_rev in Hc.
    apply negb_true_iff. apply N.eqb_neq. congruence.
  - reflexivity.
Qed.

Lemma basename_trailing_slash root : basename (root ++ [SLASH]) = [].
Proof. apply (basename_app_slash root []). simpl. tauto. Qed.

Lemma basename_plain name : ~ In SLASH name -> basename name = name.
Proof.
  intros Hn. unfold basename. rewrite span_no_stop.
  - simpl. apply rev_involutive.
  - apply forallb_forall. intros c Hc. apply in_rev in Hc.
    apply negb_true_iff. apply N.eqb_neq. congruence.
Qed.

Lemma endswith_slash a :
  endswith a [SLASH] = true -> exists b, a = b ++ [SLASH].
Proof.
  unfold endswith. intros H. apply andb_true_iff in H. destruct H as [Hl He].
  apply text_eqb_eq in He. exists (firstn (length a - length [SLASH]) a).
  etransitivity; [symmetry; apply (firstn_skipn (length a - length [SLASH]))|].
  f_equal. exact He.
Qed.

(** A sub-directory is walked under a path whose last component is its
    name. *)
Lemma basename_join top name :
  ~ In SLASH name -> basename (path_join top name) = name.
Proof.
  intros Hn. unfold path_join.
  destruct name as [|c name'] eqn:Hname.
  - simpl. destruct (is_empty top || endswith top [SLASH]) eqn:Ht.
    + rewrite app_nil_r. apply orb_true_iff in Ht. destruct Ht as [Ht|Ht].
      * apply is_empty_nil in Ht. subst. reflexivity.
      * apply endswith_slash in Ht. destruct Ht as [b ->].
        apply basename_trailing_slash.
    + apply (basename_app_slash top []). simpl. tauto.
  - simpl startswith. rewrite andb_true_r.
    destruct (N.eqb_spec c SLASH) as [->|Hc]; [simpl in Hn; tauto|].
    destruct (is_empty top || endswith top [SLASH]) eqn:Ht.
    + apply orb_true_iff in Ht. destruct Ht as [Ht|Ht].
      * apply is_empty_nil in Ht. subst. simpl app. apply basename_plain. exact Hn.
      * apply endswith_slash in Ht. destruct Ht as [b ->].
        rewrite <- app_assoc. simpl. apply basename_app_slash. exact Hn.
    + apply basename_app_slash. exact Hn.
Qed.

(** ** The pattern *)

Lemma ascii_space_not_word c :
  (c < 128)%N -> is_space c = true ->
  ascii_alnum c || N.eqb c UNDERSCORE = false.
Proof.
  intros Hlt Hs. unfold is_space in Hs. unfold ascii_alnum, UNDERSCORE.
  repeat rewrite orb_true_iff in Hs. repeat rewrite andb_true_iff in Hs.
  repeat rewrite N.leb_le in Hs. repeat rewrite N.eqb_eq in Hs.
  repeat rewrite orb_false_iff. repeat rewrite andb_false_iff.
  repeat rewrite N.leb_gt. rewrite N.eqb_neq.
  lia.
Qed.

Lemma search_from_eq uni_alnum bol s :
  search_from uni_alnum bol s =
  match (if bol then match_here uni_alnum s else None) with
  | Some (ws, id, post) => Some (mkMatch [] ws id post)
  | None =>
      match s with
      | [] => None
      | c :: s' =>
          match search_from uni_alnum (N.eqb c LF) s' with
          | Some m => Some (mkMatch (c :: m_pre m) (m_ws m) (m_id m) (m_post m))
          | None => None
          end
      end
  end.
Proof. destruct s; reflexivity. Qed.

Lemma spaces_then_word_S uni_alnum k s :
  spaces_then_word uni_alnum (S k) s =
  let (id, post) := span (is_word uni_alnum) (skipn (S k) s) in
  if is_empty id then spaces_then_word uni_alnum k s
  else Some (firstn (S k) s, id, post).
Proof. reflexivity. Qed.

(** What [spaces_then_word] returns splits the text: white space, a
    word that cannot be extended, and the rest. *)
Lemma spaces_then_word_sound uni_alnum k s ws id post :
  spaces_then_word uni_alnum k s = Some (ws, id, post) ->
  s = ws ++ id ++ post /\ id <> [] /\
  forallb (is_word uni_alnum) id = true /\
  stops (is_word uni_alnum) post = true.
Proof.
  induction k as [|k IH]; [discriminate|]. rewrite spaces_then_word_S.
  destruct (span (is_word uni_alnum) (skipn (S k) s)) as [id' post'] eqn:Hsp.
  destruct (is_empty id') eqn:He; [exact IH|].
  intros H. injection H as <- <- <-.
  pose proof (span_app (is_word uni_alnum) (skipn (S k) s)) as Happ.
  pose proof (span_fst_all (is_word uni_alnum) (skipn (S k) s)) as Hall.
  pose proof (span_snd_stops (is_word uni_alnum) (skipn (S k) s)) as Hst.
  rewrite Hsp in Happ, Hall, Hst. cbn [fst snd] in Happ, Hall, Hst.
  repeat split; auto.
  - rewrite Happ. symmetry. exact (firstn_skipn (S k) s).
  - apply is_empty_false. exact He.
Qed.

Lemma match_here_sound uni_alnum s ws id post :
  match_here uni_alnum s = Some (ws, id, post) ->
  s = keyword ++ ws ++ id ++ post /\ id <> [] /\
  forallb (is_word uni_alnum) id = true /\
  stops (is_word uni_alnum) post = true.
Proof.
  unfold match_here. destruct (startswith s keyword) eqn:Hk; [|discriminate].
  intros H. apply spaces_then_word_sound in H.
  destruct H as (Hs & Hid & Hall & Hst). repeat split; auto.
  rewrite <- Hs. apply startswith_split. exact Hk.
Qed.

(** What a search finds splits the text it searched. *)
Lemma search_from_sound uni_alnum s : forall bol m,
  search_from uni_alnum bol s = Some m ->
  s = m_pre m ++ group0 m ++ m_post m /\ m_id m <> [] /\
  forallb (is_word uni_alnum) (m_id m) = true /\
  stops (is_word uni_alnum) (m_post m) = true.
Proof.
  induction s as [|c s IH]; intros bol m; rewrite search_from_eq.
  - destruct (if bol then match_here uni_alnum [] else None)
      as [[[ws id] post]|] eqn:Hm; [|discriminate].
    destruct bol; [|discriminate]. discriminate.
  - destruct (if bol then match_here uni_alnum (c :: s) else None)
      as [[[ws id] post]|] eqn:Hm.
    + destruct bol; [|discriminate].
      intros H. injection H as <-. apply match_here_sound in Hm.
      destruct Hm as (Hs & Hid & Hall & Hst). unfold group0. simpl.
      repeat split; auto. rewrite Hs. rewrite <- !app_assoc. reflexivity.
    + destruct (search_from uni_alnum (N.eqb c LF) s) as [m'|] eqn:Hs';
        [|discriminate].
      intros H. injection H as <-. simpl.
      destruct (IH _ _ Hs') as (Hs & Hid & Hall & Hst).
      repeat split; auto. f_equal. exact Hs.
Qed.

Lemma starts_line_cons bol c l :
  starts_line bol (c :: l) = starts_line (N.eqb c LF) l.
Proof.
  unfold starts_line. simpl. destruct (rev l); reflexivity.
Qed.

(** What a search finds starts a line, and the pattern matches at no
    line start before it. *)
Lemma search_from_first uni_alnum s : forall bol m,
  search_from uni_alnum bol s = Some m ->
  starts_line bol (m_pre m) = true /\
  forall a b, m_pre m = a ++ b -> b <> [] -> starts_line bol a = true ->
    match_here uni_alnum (b ++ group0 m ++ m_post m) = None.
Proof.
  induction s as [|c s IH]; intros bol m Hs.
  - rewrite search_from_eq in Hs.
    destruct bol; simpl in Hs; discriminate.
  - pose proof (search_from_sound uni_alnum (c :: s) bol m Hs) as (Hc & _).
    rewrite search_from_eq in Hs.
    destruct (if bol then match_here uni_alnum (c :: s) else None)
      as [[[ws id] post]|] eqn:Hm.
    + destruct bol; [|discriminate]. injection Hs as <-. simpl.
      split; [reflexivity|]. intros a b Hab Hb.
      symmetry in Hab. apply app_eq_nil in Hab. tauto.
    + destruct (search_from uni_alnum (N.eqb c LF) s) as [m'|] eqn:Hs';
        [|discriminate].
      injection Hs as <-. cbn [m_pre m_post group0 m_ws m_id] in *.
      destruct (IH _ _ Hs') as [Hline Hfirst].
      split; [rewrite starts_line_cons; exact Hline|].
      intros a b Hab Hb Ha. destruct a as [|x a].
      * simpl in Hab. subst b. unfold starts_line in Ha. simpl in Ha. subst bol.
        change (group0 (mkMatch (c :: m_pre m') (m_ws m') (m_id m') (m_post m')))
          with (group0 m').
        change (group0 (mkMatch (c :: m_pre m') (m_ws m') (m_id m') (m_post m')))
          with (group0 m') in Hc.
        rewrite <- Hc. exact Hm.
      * simpl in Hab. injection Hab as <- Hab.
        rewrite starts_line_cons in Ha.
        exact (Hfirst a b Hab Hb Ha).
Qed.

Section Pattern.

Variable uni_alnum : N -> bool.
Hypothesis disjoint : classes_disjoint uni_alnum.

Lemma space_not_word c : is_space c = true -> is_word uni_alnum c = false.
Proof.
  intros Hs. unfold is_word. destruct (N.ltb_spec c 128).
  - apply ascii_space_not_word; assumption.
  - apply disjoint. exact Hs.
Qed.

Lemma word_not_space c : is_word uni_alnum c = true -> is_space c = false.
Proof.
  intros Hw. destruct (is_space c) eqn:Hs; [|reflexivity].
  apply space_not_word in Hs. congruence.
Qed.

(** No white space can be given back: a shorter run of white space is
    followed by white space, not by a word. *)
Lemma spaces_then_word_short ws r : forall k,
  forallb is_space ws = true -> k < length ws ->
  spaces_then_word uni_alnum k (ws ++ r) = None.
Proof.
  intros k Hws. induction k as [|k IH]; intros Hk; [reflexivity|].
  rewrite spaces_then_word_S.
  rewrite skipn_app.
  destruct (skipn (S k) ws) as [|c w] eqn:Hsk.
  - apply (f_equal (@length N)) in Hsk. rewrite length_skipn in Hsk.
    simpl in Hsk. lia.
  - assert (Hc : is_space c = true).
    { rewrite forallb_forall in Hws. apply Hws.
      rewrite <- (firstn_skipn (S k) ws). rewrite Hsk.
      apply in_or_app. right. left. reflexivity. }
    simpl. rewrite (space_not_word c Hc). simpl. apply IH. lia.
Qed.

Lemma spaces_then_word_none s :
  spaces_word_head uni_alnum s = false ->
  spaces_then_word uni_alnum (length (fst (span is_space s))) s = None.
Proof.
  unfold spaces_word_head. intros H.
  pose proof (span_app is_space s) as Happ.
  pose proof (span_fst_all is_space s) as Hall.
  destruct (span is_space s) as [ws r]. simpl in *. subst s.
  destruct ws as [|c ws]; [reflexivity|].
  simpl in H.
  change (length (c :: ws)) with (S (length ws)).
  rewrite spaces_then_word_S.
  replace (skipn (S (length ws)) ((c :: ws) ++ r)) with r.
  - destruct r as [|d r]; simpl span.
    + simpl is_empty. apply spaces_then_word_short; [exact Hall|simpl; lia].
    + simpl in H. rewrite H. simpl is_empty.
      apply spaces_then_word_short; [exact Hall|simpl; lia].
  - change (S (length ws)) with (length (c :: ws)).
    rewrite skipn_app, skipn_all, Nat.sub_diag. reflexivity.
Qed.

Lemma match_here_none s :
  matchable uni_alnum s = false -> match_here uni_alnum s = None.
Proof.
  unfold matchable, match_here. destruct (startswith s keyword); simpl;
    [|reflexivity].
  apply spaces_then_word_none.
Qed.

Lemma match_here_matchable s ws id post :
  match_here uni_alnum s = Some (ws, id, post) -> matchable uni_alnum s = true.
Proof.
  intros H. destruct (matchable uni_alnum s) eqn:Hm; [reflexivity|].
  apply match_here_none in Hm. congruence.
Qed.

Lemma matchable_match_here s :
  matchable uni_alnum s = true -> match_here uni_alnum s <> None.
Proof.
  unfold matchable, match_here. intros Hx.
  apply andb_true_iff in Hx. destruct Hx as [Hk Hh]. rewrite Hk.
  unfold spaces_word_head in Hh.
  pose proof (span_app is_space (skipn (length keyword) s)) as Happ.
  destruct (span is_space (skipn (length keyword) s)) as [sp r] eqn:Hsp.
  cbn [fst snd] in *. apply andb_true_iff in Hh. destruct Hh as [Hne Hw].
  destruct sp as [|a sp]; [discriminate|].
  destruct r as [|d r]; [discriminate|]. simpl in Hw.
  change (length (a :: sp)) with (S (length sp)).
  rewrite spaces_then_word_S. rewrite <- Happ.
  change (S (length sp)) with (length (a :: sp)).
  rewrite skipn_app, skipn_all, Nat.sub_diag. simpl skipn. simpl app.
  simpl span. rewrite Hw.
  destruct (span (is_word uni_alnum) r). simpl. discriminate.
Qed.

(** Whether the pattern matches at the head of a text that holds the
    keyword further on does not depend on what follows that keyword. *)
Lemma matchable_indep r y y' :
  r <> [] -> matchable uni_alnum (r ++ keyword ++ y) = matchable uni_alnum (r ++ keyword ++ y').
Proof.
  intros Hr. unfold matchable.
  set (u := r ++ lit "packag").
  assert (Hy : forall z, r ++ keyword ++ z = u ++ 101%N :: z).
  { intros z. unfold u. rewrite <- app_assoc. reflexivity. }
  assert (Hu : length keyword <= length u).
  { unfold u. rewrite length_app. destruct r; [congruence|]. simpl. lia. }
  rewrite !Hy. f_equal; [apply startswith_long; exact Hu|].
  rewrite !skipn_app.
  replace (length keyword - length u) with 0 by lia. simpl skipn at 2 4.
  unfold spaces_word_head.
  rewrite (span_fst_indep is_space _ 101%N y y') by reflexivity.
  rewrite (span_snd_head_indep is_space _ 101%N y y') by reflexivity.
  reflexivity.
Qed.

(** The first match stays where it is when the text from the keyword on
    is replaced by another text that matches. *)
Lemma search_from_replace pre : forall bol x y m ws id post,
  search_from uni_alnum bol (pre ++ keyword ++ x) = Some m ->
  m_pre m = pre ->
  match_here uni_alnum (keyword ++ y) = Some (ws, id, post) ->
  search_from uni_alnum bol (pre ++ keyword ++ y)
  = Some (mkMatch pre ws id post).
Proof.
  induction pre as [|c pre IH]; intros bol x y m ws id post Hs Hpre Hy.
  - rewrite search_from_eq in Hs. rewrite search_from_eq.
    change ([] ++ keyword ++ y) with (keyword ++ y).
    change ([] ++ keyword ++ x) with (keyword ++ x) in Hs.
    destruct bol.
    + rewrite Hy. reflexivity.
    + destruct (keyword ++ x) as [|c s]; [discriminate|].
      destruct (search_from uni_alnum (N.eqb c LF) s) as [m'|];
        [|discriminate].
      injection Hs as <-. discriminate.
  - rewrite search_from_eq in Hs. rewrite search_from_eq.
    change ((c :: pre) ++ keyword ++ x) with (c :: (pre ++ keyword ++ x)) in Hs.
    change ((c :: pre) ++ keyword ++ y) with (c :: (pre ++ keyword ++ y)).
    destruct (if bol then match_here uni_alnum (c :: pre ++ keyword ++ x) else None)
      as [[[ws0 id0] post0]|] eqn:Hm.
    { injection Hs as <-. discriminate. }
    assert (Hm' : (if bol then match_here uni_alnum (c :: pre ++ keyword ++ y)
                   else None) = None).
    { destruct bol; [|reflexivity].
      apply match_here_none.
      change (c :: pre ++ keyword ++ y) with ((c :: pre) ++ keyword ++ y).
      rewrite (matchable_indep (c :: pre) y x) by discriminate.
      destruct (matchable uni_alnum ((c :: pre) ++ keyword ++ x)) eqn:Hx; [|reflexivity].
      apply matchable_match_here in Hx. exfalso. apply Hx. exact Hm. }
    rewrite Hm'.
    destruct (search_from uni_alnum (N.eqb c LF) (pre ++ keyword ++ x))
      as [m'|] eqn:Hs'; [|discriminate].
    injection Hs as <-. simpl in Hpre. injection Hpre as Hpre.
    rewrite (IH _ x y m' ws id post Hs' Hpre Hy). reflexivity.
Qed.

(** A keyword, one space and a word match, and the word is group 1. *)
Lemma match_here_rewritten e post :
  e <> [] -> forallb (is_word uni_alnum) e = true ->
  stops (is_word uni_alnum) post = true ->
  match_here uni_alnum (keyword ++ 32%N :: e ++ post) = Some ([32%N], e, post).
Proof.
  intros He Hall Hst. unfold match_here.
  rewrite startswith_app.
  change (skipn (length keyword) (keyword ++ 32%N :: e ++ post))
    with (32%N :: e ++ post).
  destruct e as [|c e]; [congruence|].
  simpl in Hall. apply andb_true_iff in Hall. destruct Hall as [Hc Hall].
  simpl app. simpl span. rewrite (word_not_space c Hc). simpl.
  rewrite Hc.
  rewrite (span_exact (is_word uni_alnum) e post Hall Hst). reflexivity.
Qed.

End Pattern.

(** ** Templates without a backslash *)

Lemma tokenize_plain s : ~ In BACKSLASH s -> tokenize s = map Chr s.
Proof.
  induction s as [|c s IH]; intros H; [reflexivity|].
  simpl in H. simpl.
  destruct (N.eqb_spec c BACKSLASH) as [->|_]; [tauto|].
  rewrite IH by tauto. reflexivity.
Qed.

Lemma dangles_plain s : dangles (map Chr s) = false.
Proof. destruct s; reflexivity. Qed.

Lemma parse_tokens_plain s :
  parse_tokens None (map Chr s) = inr (map (fun c => Literal [c]) s).
Proof.
  induction s as [|c s IH]; [reflexivity|].
  cbn [map parse_tokens]. rewrite dangles_plain, IH. reflexivity.
Qed.

Lemma parse_template_plain s :
  ~ In BACKSLASH s ->
  parse_template s = inr (map (fun c => Literal [c]) s).
Proof.
  intros H. unfold parse_template. rewrite (tokenize_plain s H).
  rewrite dangles_plain. apply parse_tokens_plain.
Qed.

Lemma expand_plain s m : expand (map (fun c => Literal [c]) s) m = s.
Proof.
  unfold expand. induction s as [|c s IH]; simpl; congruence.
Qed.

Lemma sub_plain uni_alnum repl content m :
  ~ In BACKSLASH repl ->
  search uni_alnum content = Some m ->
  sub uni_alnum repl content = inr (m_pre m ++ repl ++ m_post m).
Proof.
  intros Hb Hs. unfold sub. rewrite (parse_template_plain repl Hb), Hs.
  rewrite expand_plain. reflexivity.
Qed.

Lemma expected_package_plain x folder_name is_test has_suffix :
  (x <> UNDERSCORE) -> (x <> 116)%N -> (x <> 101)%N -> (x <> 115)%N ->
  ~ In x folder_name ->
  ~ In x (expected_package_of folder_name is_test has_suffix).
Proof.
  intros H1 H2 H3 H4 Hf. unfold expected_package_of.
  destruct is_test, has_suffix; try exact Hf.
  intros H. apply in_app_or in H. destruct H as [H|H]; [tauto|].
  simpl in H. unfold UNDERSCORE in H1. intuition congruence.
Qed.

Lemma replacement_plain expected :
  ~ In BACKSLASH expected -> ~ In BACKSLASH (replacement expected).
Proof.
  intros He H. unfold replacement in H. apply in_app_or in H.
  destruct H as [H|H]; [|tauto].
  simpl in H. unfold BACKSLASH in H. intuition discriminate.
Qed.

Lemma word_text_has_not uni_alnum x s :
  is_word uni_alnum x = false ->
  forallb (is_word uni_alnum) s = true -> ~ In x s.
Proof.
  intros Hx Hs Hin. rewrite forallb_forall in Hs.
  apply Hs in Hin. congruence.
Qed.

(** ** Loops *)

Lemma for_each_total {A} (body : A -> M unit) (l : list A) :
  (forall x fs, snd (body x fs) = inr tt) ->
  forall fs,
    for_each l body fs
    = (fst (run_all body l fs), snd (run_all body l fs), inr tt).
Proof.
  intros Hbody. induction l as [|x l IH]; intros fs; [reflexivity|].
  simpl. unfold bind. specialize (Hbody x fs).
  destruct (body x fs) as [[fs1 out1] r]. simpl in *. subst r.
  rewrite IH. reflexivity.
Qed.

Lemma run_all_app {A} (body : A -> M unit) (l1 l2 : list A) fs :
  run_all body (l1 ++ l2) fs
  = (fst (run_all body l2 (fst (run_all body l1 fs))),
     snd (run_all body l1 fs) ++ snd (run_all body l2 (fst (run_all body l1 fs)))).
Proof.
  revert fs. induction l1 as [|x l1 IH]; intros fs; simpl.
  - destruct (run_all body l2 fs). reflexivity.
  - rewrite IH. simpl. rewrite app_assoc. reflexivity.
Qed.

Lemma run_all_map {A B} (f : A -> B) (body : B -> M unit) (l : list A) fs :
  run_all body (map f l) fs = run_all (fun x => body (f x)) l fs.
Proof.
  revert fs. induction l as [|x l IH]; intros fs; simpl; [reflexivity|].
  rewrite IH. reflexivity.
Qed.

Lemma visit_total uni_alnum dirpath filename dry_run fs :
  snd (visit uni_alnum dirpath filename dry_run fs) = inr tt.
Proof.
  rewrite visit_eq. unfold visit_result.
  split_matches; reflexivity.
Qed.

Lemma files_loop_run uni_alnum dry_run (entry : text * list text) fs :
  for_each (snd entry)
    (fun filename => visit uni_alnum (fst entry) filename dry_run) fs
  = (fst (run_all (visit_of uni_alnum dry_run)
            (map (pair (fst entry)) (snd entry)) fs),
     snd (run_all (visit_of uni_alnum dry_run)
            (map (pair (fst entry)) (snd entry)) fs),
     inr tt).
Proof.
  rewrite for_each_total by (intros; apply visit_total).
  rewrite run_all_map. reflexivity.
Qed.

Lemma run_all_visits uni_alnum dry_run walked : forall fs,
  run_all (fun entry => for_each (snd entry)
             (fun filename => visit uni_alnum (fst entry) filename dry_run))
    walked fs
  = run_all (visit_of uni_alnum dry_run) (visits walked) fs.
Proof.
  induction walked as [|entry walked IH]; intros fs; [reflexivity|].
  simpl. rewrite run_all_app, files_loop_run. simpl.
  rewrite IH. reflexivity.
Qed.

(** The walk is the visit of its files, one after the other. *)
Lemma walk_loop_run uni_alnum walked dry_run fs :
  walk_loop uni_alnum walked dry_run fs
  = (fst (run_all (visit_of uni_alnum dry_run) (visits walked) fs),
     snd (run_all (visit_of uni_alnum dry_run) (visits walked) fs), inr tt).
Proof.
  unfold walk_loop.
  rewrite for_each_total
    by (intros x fs0; rewrite files_loop_run; reflexivity).
  rewrite run_all_visits. reflexivity.
Qed.

(** ** One file *)

Lemma visit_handled dirpath filename :
  handled dirpath filename ->
  negb (endswith filename go_ext) || is_empty (basename dirpath) = false.
Proof.
  intros [Hgo Hdir]. rewrite Hgo. simpl. apply is_empty_false. exact Hdir.
Qed.

(** An exception leaves the [try] before anything was written or
    printed, and [visit] turns it into one warning. *)
Lemma try_body_raises uni_alnum dirpath filename dry_run fs fsx outx e :
  handled dirpath filename ->
  try_body uni_alnum (path_join dirpath filename) (basename dirpath) filename
    dry_run fs = (fsx, outx, inl e) ->
  visit uni_alnum dirpath filename dry_run fs
  = (fs, [Skipped (path_join dirpath filename) e], inr tt).
Proof.
  intros [Hgo Hdir] Hb. unfold visit. rewrite Hgo. simpl.
  apply is_empty_false in Hdir. rewrite Hdir.
  unfold try_except. revert Hb.
  unfold try_body, bind, read_file.
  destruct (f_read_error (fs (path_join dirpath filename))).
  { intros H. injection H as <- <- <-. reflexivity. }
  destruct (search uni_alnum _) as [m|]; [|discriminate].
  destruct (negb (text_eqb (group1 m) _)); [|discriminate].
  destruct dry_run; [discriminate|].
  destruct (sub uni_alnum _ _) as [e'|new_content].
  { intros H. injection H as <- <- <-. reflexivity. }
  unfold bind, write_file.
  destruct (f_write_error (fs (path_join dirpath filename))).
  { intros H. injection H as <- <- <-. reflexivity. }
  discriminate.
Qed.

Lemma update_same fs path f : update fs path f path = f.
Proof. unfold update. destruct (text_eq_dec path path); congruence. Qed.

Lemma update_other fs path f q : q <> path -> update fs path f q = fs q.
Proof. unfold update. destruct (text_eq_dec q path); congruence. Qed.

(** A mismatch in a folder whose name holds no backslash: the match, and
    nothing else, gives way to the new declaration. *)
Lemma visit_rewrites uni_alnum dirpath filename fs m :
  handled dirpath filename ->
  ~ In BACKSLASH (basename dirpath) ->
  readable fs (path_join dirpath filename) ->
  writable fs (path_join dirpath filename) ->
  search uni_alnum (content_of fs (path_join dirpath filename)) = Some m ->
  group1 m <> expected_for dirpath filename (group1 m) ->
  visit uni_alnum dirpath filename false fs
  = (update fs (path_join dirpath filename)
       (mkFile (m_pre m ++ replacement (expected_for dirpath filename (group1 m))
                ++ m_post m) None None),
     [Updated (path_join dirpath filename) (group1 m)
        (expected_for dirpath filename (group1 m))],
     inr tt).
Proof.
  intros Hh Hb Hr Hw Hs Hne. rewrite visit_eq. unfold visit_result.
  rewrite (visit_handled dirpath filename Hh).
  unfold readable in Hr. unfold writable in Hw. rewrite Hr, Hs, Hw.
  fold (expected_for dirpath filename (group1 m)).
  apply text_eqb_neq in Hne. rewrite Hne.
  rewrite (sub_plain uni_alnum _ _ m); [reflexivity| |exact Hs].
  apply replacement_plain. unfold expected_for.
  apply expected_package_plain; try (unfold BACKSLASH, UNDERSCORE; discriminate).
  exact Hb.
Qed.

(** A declaration that is the expected one: nothing happens. *)
Lemma visit_leaves_expected uni_alnum dirpath filename dry_run fs m :
  readable fs (path_join dirpath filename) ->
  search uni_alnum (content_of fs (path_join dirpath filename)) = Some m ->
  group1 m = expected_for dirpath filename (group1 m) ->
  visit uni_alnum dirpath filename dry_run fs = (fs, [], inr tt).
Proof.
  intros Hr Hs He. rewrite visit_eq. unfold visit_result.
  destruct (negb (endswith filename go_ext) || is_empty (basename dirpath));
    [reflexivity|].
  unfold readable in Hr. rewrite Hr, Hs.
  fold (expected_for dirpath filename (group1 m)).
  apply text_eqb_eq in He. rewrite He. reflexivity.
Qed.

Lemma visit_preview_keeps uni_alnum dirpath filename fs :
  fst (fst (visit uni_alnum dirpath filename true fs)) = fs.
Proof.
  rewrite visit_eq. unfold visit_result.
  split_matches; reflexivity.
Qed.

Lemma run_all_preview_keeps uni_alnum l : forall fs,
  fst (run_all (visit_of uni_alnum true) l fs) = fs.
Proof.
  induction l as [|v l IH]; intros fs; [reflexivity|].
  simpl. rewrite IH. apply visit_preview_keeps.
Qed.

Lemma for_each_skips {A} (body : A -> M unit) (l : list A) :
  (forall x fs, body x fs = (fs, [], inr tt)) ->
  forall fs, for_each l body fs = (fs, [], inr tt).
Proof.
  intros Hbody fs. induction l as [|x l IH]; [reflexivity|].
  simpl. unfold bind. rewrite Hbody, IH. reflexivity.
Qed.

Lemma visits_app l1 l2 : visits (l1 ++ l2) = visits l1 ++ visits l2.
Proof. unfold visits. apply flat_map_app. Qed.

Lemma visits_split before dirpath fl1 filename fl2 after :
  visits (before ++ (dirpath, fl1 ++ filename :: fl2) :: after)
  = visits (before ++ [(dirpath, fl1)])
    ++ (dirpath, filename) :: visits ((dirpath, fl2) :: after).
Proof.
  rewrite !visits_app. unfold visits. simpl.
  rewrite map_app. simpl. rewrite app_nil_r, <- !app_assoc. reflexivity.
Qed.

(** ** A second visit *)

Section Settled.

Variable uni_alnum : N -> bool.
Hypothesis disjoint : classes_disjoint uni_alnum.

Lemma expected_package_word folder_name is_test has_suffix :
  forallb (is_word uni_alnum) folder_name = true ->
  forallb (is_word uni_alnum)
    (expected_package_of folder_name is_test has_suffix) = true.
Proof.
  intros H. unfold expected_package_of.
  destruct is_test, has_suffix; try exact H.
  rewrite forallb_app, H. reflexivity.
Qed.

Lemma expected_package_not_empty folder_name is_test has_suffix :
  folder_name <> [] ->
  expected_package_of folder_name is_test has_suffix <> [].
Proof.
  intros H. unfold expected_package_of.
  destruct is_test, has_suffix; try exact H.
  destruct folder_name; [congruence|discriminate].
Qed.

(** The text written for a word [e] reads back unchanged, and its first
    match is where the match was, with [e] as group 1. *)
Lemma rewritten_search content m e :
  search uni_alnum content = Some m ->
  ~ In CR content ->
  e <> [] -> forallb (is_word uni_alnum) e = true ->
  universal_newlines (m_pre m ++ replacement e ++ m_post m)
  = m_pre m ++ replacement e ++ m_post m /\
  search uni_alnum (m_pre m ++ replacement e ++ m_post m)
  = Some (mkMatch (m_pre m) [32%N] e (m_post m)).
Proof.
  intros Hs Hcr He Hw.
  destruct (search_from_sound uni_alnum content true m Hs)
    as (Hc & _ & _ & Hst).
  split.
  - apply universal_newlines_no_cr. rewrite Hc in Hcr.
    intros Hin. apply in_app_or in Hin. destruct Hin as [Hin|Hin].
    { apply Hcr. apply in_or_app. left. exact Hin. }
    apply in_app_or in Hin. destruct Hin as [Hin|Hin].
    + unfold replacement in Hin. apply in_app_or in Hin.
      destruct Hin as [Hin|Hin].
      * simpl in Hin. unfold CR in Hin. intuition discriminate.
      * revert Hin. apply (word_text_has_not uni_alnum); [reflexivity|exact Hw].
    + apply Hcr. apply in_or_app. right. apply in_or_app. right. exact Hin.
  - unfold search in *.
    change (replacement e ++ m_post m)
      with (keyword ++ 32%N :: e ++ m_post m).
    rewrite Hc in Hs. unfold group0 in Hs. rewrite <- !app_assoc in Hs.
    apply (search_from_replace uni_alnum disjoint (m_pre m) true
             (m_ws m ++ m_id m ++ m_post m) (32%N :: e ++ m_post m) m);
      [exact Hs|reflexivity|].
    apply match_here_rewritten; assumption.
Qed.

Lemma stable_expected folder_name filename current_package :
  stable_name uni_alnum folder_name filename ->
  expected_package_of folder_name (endswith filename test_go_ext)
    (endswith
       (expected_package_of folder_name (endswith filename test_go_ext)
          (endswith current_package test_suffix)) test_suffix)
  = expected_package_of folder_name (endswith filename test_go_ext)
      (endswith current_package test_suffix).
Proof.
  intros [_ Hst]. unfold expected_package_of.
  destruct (endswith filename test_go_ext); [|reflexivity].
  destruct (endswith current_package test_suffix).
  - rewrite endswith_app. reflexivity.
  - rewrite (Hst eq_refl). reflexivity.
Qed.

(** The file a visit leaves is left alone by the next visit. *)
Lemma visit_quiet_after dirpath filename fs :
  (handled dirpath filename ->
   stable_name uni_alnum (basename dirpath) filename) ->
  quiet uni_alnum dirpath filename
    (fst (fst (visit uni_alnum dirpath filename false fs))
       (path_join dirpath filename)).
Proof.
  intros Hstable. rewrite visit_eq. unfold visit_result.
  destruct (negb (endswith filename go_ext) || is_empty (basename dirpath))
    eqn:Hh.
  { intros fs' _. exists []. rewrite visit_eq. unfold visit_result.
    rewrite Hh. split; [reflexivity|constructor]. }
  assert (Hhandled : handled dirpath filename).
  { apply orb_false_iff in Hh. destruct Hh as [Hgo Hdir].
    apply negb_false_iff in Hgo. apply is_empty_false in Hdir.
    split; assumption. }
  specialize (Hstable Hhandled).
  destruct (f_read_error (fs (path_join dirpath filename))) as [reason|] eqn:Hr.
  { intros fs' Hfs'. simpl in Hfs'. eexists. rewrite visit_eq.
    unfold visit_result. rewrite Hh, Hfs', Hr.
    split; [reflexivity|]. repeat constructor. }
  destruct (search uni_alnum (content_of fs (path_join dirpath filename)))
    as [m|] eqn:Hs.
  2:{ intros fs' Hfs'. simpl in Hfs'. exists []. rewrite visit_eq.
      unfold visit_result, content_of. rewrite Hh, Hfs', Hr.
      unfold content_of in Hs. rewrite Hs. split; [reflexivity|constructor]. }
  set (expected := expected_package_of (basename dirpath)
                     (endswith filename test_go_ext)
                     (endswith (group1 m) test_suffix)).
  destruct (text_eqb (group1 m) expected) eqn:He.
  { intros fs' Hfs'. simpl in Hfs'. exists []. rewrite visit_eq.
    unfold visit_result, content_of. rewrite Hh, Hfs', Hr.
    unfold content_of in Hs. rewrite Hs. fold expected. rewrite He.
    split; [reflexivity|constructor]. }
  assert (Hword : forallb (is_word uni_alnum) expected = true).
  { apply expected_package_word. apply Hstable. }
  assert (Hne : expected <> []).
  { apply expected_package_not_empty. apply Hhandled. }
  rewrite (sub_plain uni_alnum _ _ m); [| |exact Hs].
  2:{ apply replacement_plain.
      apply (word_text_has_not uni_alnum); [reflexivity|exact Hword]. }
  destruct (f_write_error (fs (path_join dirpath filename))) as [reason|] eqn:Hw.
  { intros fs' Hfs'. simpl in Hfs'. eexists. rewrite visit_eq.
    unfold visit_result, content_of. rewrite Hh, Hfs', Hr.
    unfold content_of in Hs. rewrite Hs. fold expected. rewrite He.
    rewrite (sub_plain uni_alnum _ _ m); [| |exact Hs].
    2:{ apply replacement_plain.
        apply (word_text_has_not uni_alnum); [reflexivity|exact Hword]. }
    rewrite Hw. split; [reflexivity|]. repeat constructor. }
  cbn [fst]. rewrite update_same.
  intros fs' Hfs'. exists []. rewrite visit_eq.
  unfold visit_result, content_of. rewrite Hh, Hfs'.
  cbn [f_read_error f_data f_write_error].
  destruct (rewritten_search _ m expected Hs
              (universal_newlines_clean _) Hne Hword) as [Hun Hsearch].
  rewrite Hun, Hsearch. unfold group1 at 1 2. simpl.
  unfold expected at 2.
  rewrite (stable_expected _ _ (group1 m) Hstable). fold expected.
  unfold group1. simpl. rewrite text_eqb_refl.
  split; [reflexivity|constructor].
Qed.

End Settled.

Lemma visit_other uni_alnum dirpath filename dry_run fs q :
  q <> path_join dirpath filename ->
  fst (fst (visit uni_alnum dirpath filename dry_run fs)) q = fs q.
Proof.
  intros Hq. rewrite visit_eq. unfold visit_result.
  split_matches; try reflexivity.
  simpl. apply update_other. exact Hq.
Qed.

Lemma run_all_other uni_alnum dry_run q l : forall fs,
  ~ In q (map path_of l) ->
  fst (run_all (visit_of uni_alnum dry_run) l fs) q = fs q.
Proof.
  induction l as [|v l IH]; intros fs Hq; [reflexivity|].
  simpl in *. rewrite IH by tauto. apply visit_other.
  intros ->. apply Hq. left. reflexivity.
Qed.

(** After the walk, every file it visited is left alone by a visit. *)
Lemma run_all_quiet uni_alnum l :
  classes_disjoint uni_alnum ->
  NoDup (map path_of l) ->
  (forall v, In v l -> handled (fst v) (snd v) ->
             stable_name uni_alnum (basename (fst v)) (snd v)) ->
  forall fs v, In v l ->
    quiet uni_alnum (fst v) (snd v)
      (fst (run_all (visit_of uni_alnum false) l fs) (path_of v)).
Proof.
  intros Hd. induction l as [|x l IH]; intros Hnd Hst fs v Hin;
    [destruct Hin|].
  simpl in Hnd. inversion Hnd as [|? ? Hx Hnd']; subst.
  simpl. destruct Hin as [->|Hin].
  - rewrite run_all_other by exact Hx.
    apply visit_quiet_after; [exact Hd|]. apply Hst. left. reflexivity.
  - apply IH; auto. intros w Hw. apply Hst. right. exact Hw.
Qed.

(** A walk over files that are all left alone changes nothing. *)
Lemma run_all_settled uni_alnum l fs :
  (forall v, In v l -> quiet uni_alnum (fst v) (snd v) (fs (path_of v))) ->
  fst (run_all (visit_of uni_alnum false) l fs) = fs /\
  Forall is_warning (snd (run_all (visit_of uni_alnum false) l fs)).
Proof.
  induction l as [|v l IH]; intros Hq; [split; [reflexivity|constructor]|].
  simpl. destruct (Hq v (or_introl eq_refl) fs eq_refl) as (out & Hv & Hout).
  change (visit_of uni_alnum false v fs)
    with (visit uni_alnum (fst v) (snd v) false fs).
  rewrite Hv. cbn [fst snd].
  destruct IH as [IH1 IH2].
  { intros w Hw. apply Hq. right. exact Hw. }
  split; [exact IH1|]. apply Forall_app. split; assumption.
Qed.

(** In a folder whose name holds no backslash, whatever white space
    followed the keyword, one space follows it in the file written. *)
Lemma rewrite_collapses_white_space uni_alnum dirpath filename fs m :
  handled dirpath filename ->
  ~ In BACKSLASH (basename dirpath) ->
  readable fs (path_join dirpath filename) ->
  writable fs (path_join dirpath filename) ->
  search uni_alnum (content_of fs (path_join dirpath filename)) = Some m ->
  group1 m <> expected_for dirpath filename (group1 m) ->
  f_data (fst (fst (visit uni_alnum dirpath filename false fs))
            (path_join dirpath filename))
  = m_pre m ++ keyword ++ [32%N] ++ expected_for dirpath filename (group1 m)
    ++ m_post m.
Proof.
  intros Hh Hb Hr Hw Hs Hne.
  rewrite (visit_rewrites uni_alnum dirpath filename fs m); auto.
  cbn [fst]. rewrite update_same. reflexivity.
Qed.

Lemma ascii_only_disjoint : classes_disjoint ascii_only.
Proof. intros c _. reflexivity. Qed.

(** * The claims *)

(** C1 (amended): when the walk lists no file twice and every Go file
    lies in a folder whose name is made of word characters only and,
    for a test file, does not end with [_test], a second run in apply
    mode over the files the first run left writes nothing and prints no
    update: it leaves every file as it is and prints warnings at most. *)
Theorem C1_second_apply_changes_nothing
  uni_alnum tree root_dir fs fs1 out1 :
  classes_disjoint uni_alnum ->
  NoDup (map path_of (visits (os_walk root_dir tree))) ->
  (forall v, In v (visits (os_walk root_dir tree)) ->
     handled (fst v) (snd v) ->
     stable_name uni_alnum (basename (fst v)) (snd v)) ->
  fix_package_names uni_alnum tree root_dir false fs = (fs1, out1, inr tt) ->
  exists out2,
    fix_package_names uni_alnum tree root_dir false fs1 = (fs1, out2, inr tt) /\
    Forall is_warning out2.
Proof.
  intros Hd Hnd Hst Hrun. unfold fix_package_names in *.
  rewrite walk_loop_run in Hrun. injection Hrun as Hfs1 _.
  rewrite walk_loop_run.
  destruct (run_all_settled uni_alnum (visits (os_walk root_dir tree)) fs1)
    as [Hsame Hwarn].
  - intros v Hv. rewrite <- Hfs1. apply run_all_quiet; assumption.
  - eexists. split; [|exact Hwarn]. rewrite Hsame at 1. reflexivity.
Qed.

Lemma C1_witness :
  classes_disjoint ascii_only /\
  NoDup (map path_of (visits (os_walk (lit "proj") demo_tree))) /\
  exists out2,
    fix_package_names ascii_only demo_tree (lit "proj") false
      (fst (fst (fix_package_names ascii_only demo_tree (lit "proj") false
                   demo_store)))
    = (fst (fst (fix_package_names ascii_only demo_tree (lit "proj") false
                   demo_store)), out2, inr tt) /\
    Forall is_warning out2.
Proof.
  assert (Hnd : NoDup (map path_of (visits (os_walk (lit "proj") demo_tree)))).
  { vm_compute. repeat constructor; simpl; intuition discriminate. }
  split; [exact ascii_only_disjoint|]. split; [exact Hnd|].
  apply (C1_second_apply_changes_nothing ascii_only demo_tree (lit "proj")
           demo_store _
           (snd (fst (fix_package_names ascii_only demo_tree (lit "proj") false
                        demo_store)))
           ascii_only_disjoint Hnd).
  - intros v Hv _. vm_compute in Hv.
    repeat (destruct Hv as [<-|Hv];
            [split; [vm_compute; reflexivity|vm_compute; intros; congruence]|]).
    destruct Hv.
  - unfold fix_package_names. rewrite walk_loop_run. reflexivity.
Defined.

(** C1, as stated, fails: in a folder named [my-pkg] the first run
    writes [package my-pkg], which declares [my], and the second run
    rewrites the file again and prints an update. *)
Lemma C1_second_apply_rewrites_again :
  f_data (fst (fst (fix_package_names ascii_only hyphen_tree (lit "proj") false
                      hyphen_store)) (lit "proj/my-pkg/a.go"))
  = lit "package my-pkg" ++ [LF] /\
  snd (fst (fix_package_names ascii_only hyphen_tree (lit "proj") false
              (fst (fst (fix_package_names ascii_only hyphen_tree (lit "proj")
                           false hyphen_store)))))
  = [Updated (lit "proj/my-pkg/a.go") (lit "my") (lit "my-pkg")] /\
  f_data (fst (fst (fix_package_names ascii_only hyphen_tree (lit "proj") false
                      (fst (fst (fix_package_names ascii_only hyphen_tree
                                   (lit "proj") false hyphen_store)))))
            (lit "proj/my-pkg/a.go"))
  = lit "package my-pkg-pkg" ++ [LF].
Proof. vm_compute. repeat split. Qed.

(** The same in a folder whose name ends with the test suffix. *)
Lemma second_apply_appends_test_suffix :
  snd (fst (fix_package_names ascii_only suffix_tree (lit "proj") false
              suffix_store))
  = [Updated (lit "proj/e2e_test/api_test.go") (lit "e2e") (lit "e2e_test")] /\
  snd (fst (fix_package_names ascii_only suffix_tree (lit "proj") false
              (fst (fst (fix_package_names ascii_only suffix_tree (lit "proj")
                           false suffix_store)))))
  = [Updated (lit "proj/e2e_test/api_test.go") (lit "e2e_test")
       (lit "e2e_test_test")].
Proof. vm_compute. repeat split. Qed.

(** C2 (amended): for a Go file with a matched declaration the expected
    identifier is the folder name, followed by [_test] exactly when the
    file name ends with [_test.go] and the declared identifier ends with
    [_test]; and when the folder name is made of word characters only
    and the file can be written, the file declares the expected
    identifier after a visit in apply mode. *)
Theorem C2_expected_identifier_is_declared_after_apply
  uni_alnum dirpath filename fs m :
  classes_disjoint uni_alnum ->
  handled dirpath filename ->
  forallb (is_word uni_alnum) (basename dirpath) = true ->
  readable fs (path_join dirpath filename) ->
  writable fs (path_join dirpath filename) ->
  search uni_alnum (content_of fs (path_join dirpath filename)) = Some m ->
  expected_for dirpath filename (group1 m)
  = (if endswith filename (lit "_test.go") then
       if endswith (group1 m) (lit "_test")
       then basename dirpath ++ lit "_test"
       else basename dirpath
     else basename dirpath) /\
  declared uni_alnum
    (content_of (fst (fst (visit uni_alnum dirpath filename false fs)))
       (path_join dirpath filename))
  = Some (expected_for dirpath filename (group1 m)).
Proof.
  intros Hd Hh Hword Hr Hw Hs. split; [reflexivity|].
  destruct (text_eq_dec (group1 m) (expected_for dirpath filename (group1 m)))
    as [He|Hne].
  - rewrite (visit_leaves_expected
               uni_alnum dirpath filename false fs m Hr Hs He).
    cbn [fst]. unfold declared. rewrite Hs. simpl. congruence.
  - rewrite (visit_rewrites uni_alnum dirpath filename fs m); auto.
    2:{ apply (word_text_has_not uni_alnum); [reflexivity|exact Hword]. }
    cbn [fst]. unfold content_of at 1. rewrite update_same. cbn [f_data].
    destruct (rewritten_search uni_alnum Hd _ m
                (expected_for dirpath filename (group1 m)) Hs
                (universal_newlines_clean _)) as [Hun Hsearch].
    + apply expected_package_not_empty. apply Hh.
    + apply expected_package_word. exact Hword.
    + fold (content_of fs (path_join dirpath filename)).
      rewrite Hun. unfold declared. rewrite Hsearch. reflexivity.
Qed.

Lemma C2_witness :
  classes_disjoint ascii_only /\
  handled (lit "proj/widgets") (lit "widgets_test.go") /\
  forallb (is_word ascii_only) (basename (lit "proj/widgets")) = true /\
  declared ascii_only
    (content_of
       (fst (fst (visit ascii_only (lit "proj/widgets") (lit "widgets_test.go")
                    false demo_store)))
       (path_join (lit "proj/widgets") (lit "widgets_test.go")))
  = Some (lit "widgets_test").
Proof.
  assert (Hh : handled (lit "proj/widgets") (lit "widgets_test.go"))
    by (split; [reflexivity|vm_compute; discriminate]).
  assert (Hw : forallb (is_word ascii_only) (basename (lit "proj/widgets")) = true)
    by (vm_compute; reflexivity).
  assert (Hs : search ascii_only
                 (content_of demo_store
                    (path_join (lit "proj/widgets") (lit "widgets_test.go")))
               = Some (mkMatch [] [32%N] (lit "widget_test") [LF]))
    by (vm_compute; reflexivity).
  split; [exact ascii_only_disjoint|]. split; [exact Hh|]. split; [exact Hw|].
  exact (proj2 (C2_expected_identifier_is_declared_after_apply ascii_only
                  (lit "proj/widgets") (lit "widgets_test.go") demo_store _
                  ascii_only_disjoint Hh Hw eq_refl eq_refl Hs)).
Defined.

(** C2, as stated, fails: in a folder named [my-pkg] the expected
    identifier is [my-pkg], and the file declares [my] after the
    rewrite. *)
Lemma C2_hyphen_folder_declares_a_prefix :
  expected_for (lit "proj/my-pkg") (lit "a.go") (lit "foo") = lit "my-pkg" /\
  declared ascii_only
    (content_of
       (fst (fst (visit ascii_only (lit "proj/my-pkg") (lit "a.go") false
                    hyphen_store)))
       (lit "proj/my-pkg/a.go"))
  = Some (lit "my") /\
  declared ascii_only
    (content_of
       (fst (fst (visit ascii_only (lit "proj/my-pkg") (lit "a.go") false
                    hyphen_store)))
       (lit "proj/my-pkg/a.go"))
  <> Some (expected_for (lit "proj/my-pkg") (lit "a.go") (lit "foo")).
Proof. vm_compute. repeat split. discriminate. Qed.

(** The same at the top of the default root: the folder name is [.],
    and the file written declares nothing. *)
Lemma default_root_writes_a_dot :
  visit ascii_only (lit ".") (lit "main.go") false dot_store
  = (update dot_store (lit "./main.go")
       (mkFile (lit "package ." ++ [LF]) None None),
     [Updated (lit "./main.go") (lit "main") (lit ".")], inr tt) /\
  declared ascii_only (lit "package ." ++ [LF]) = None.
Proof. vm_compute. split; reflexivity. Qed.

(** C3 (amended): in apply mode, for a file whose declared identifier is
    not the expected one, in a folder whose name holds no backslash, the
    text read from the file is the text before the first match, the
    match, and the text after it; what is written is the same text with
    the match replaced by [package <expected>]; the pattern matches at
    no line start before the match; and the text read is the file itself
    when the file holds no carriage return. *)
Theorem C3_rewrite_replaces_first_match_only
  uni_alnum dirpath filename fs m :
  handled dirpath filename ->
  ~ In BACKSLASH (basename dirpath) ->
  readable fs (path_join dirpath filename) ->
  writable fs (path_join dirpath filename) ->
  search uni_alnum (content_of fs (path_join dirpath filename)) = Some m ->
  group1 m <> expected_for dirpath filename (group1 m) ->
  content_of fs (path_join dirpath filename)
  = m_pre m ++ group0 m ++ m_post m /\
  visit uni_alnum dirpath filename false fs
  = (update fs (path_join dirpath filename)
       (mkFile (m_pre m
                ++ (lit "package " ++ expected_for dirpath filename (group1 m))
                ++ m_post m) None None),
     [Updated (path_join dirpath filename) (group1 m)
        (expected_for dirpath filename (group1 m))],
     inr tt) /\
  (forall a b, m_pre m = a ++ b -> b <> [] -> starts_line true a = true ->
     match_here uni_alnum (b ++ group0 m ++ m_post m) = None) /\
  (~ In CR (f_data (fs (path_join dirpath filename))) ->
   content_of fs (path_join dirpath filename)
   = f_data (fs (path_join dirpath filename))).
Proof.
  intros Hh Hb Hr Hw Hs Hne. split; [|split; [|split]].
  - apply (search_from_sound uni_alnum _ true m Hs).
  - apply visit_rewrites; assumption.
  - apply (search_from_first uni_alnum _ true m Hs).
  - apply universal_newlines_no_cr.
Qed.

Lemma C3_witness :
  handled (lit "proj/widgets") (lit "helper_test.go") /\
  ~ In BACKSLASH (basename (lit "proj/widgets")) /\
  content_of demo_store (path_join (lit "proj/widgets") (lit "helper_test.go"))
  = [] ++ group0 (mkMatch [] [32%N; 32%N] (lit "widget")
                    (LF :: lit "var x = 1" ++ [LF]))
       ++ (LF :: lit "var x = 1" ++ [LF]) /\
  visit ascii_only (lit "proj/widgets") (lit "helper_test.go") false demo_store
  = (update demo_store (path_join (lit "proj/widgets") (lit "helper_test.go"))
       (mkFile ([] ++ (lit "package " ++ lit "widgets")
                ++ (LF :: lit "var x = 1" ++ [LF])) None None),
     [Updated (path_join (lit "proj/widgets") (lit "helper_test.go"))
        (lit "widget") (lit "widgets")],
     inr tt).
Proof.
  assert (Hh : handled (lit "proj/widgets") (lit "helper_test.go"))
    by (split; [reflexivity|vm_compute; discriminate]).
  assert (Hb : ~ In BACKSLASH (basename (lit "proj/widgets")))
    by (vm_compute; intuition discriminate).
  split; [exact Hh|]. split; [exact Hb|].
  assert (Hs : search ascii_only
                 (content_of demo_store
                    (path_join (lit "proj/widgets") (lit "helper_test.go")))
               = Some (mkMatch [] [32%N; 32%N] (lit "widget")
                         (LF :: lit "var x = 1" ++ [LF])))
    by (vm_compute; reflexivity).
  assert (Hne : lit "widget"
                <> expected_for (lit "proj/widgets") (lit "helper_test.go")
                     (lit "widget"))
    by (vm_compute; discriminate).
  destruct (C3_rewrite_replaces_first_match_only ascii_only
              (lit "proj/widgets") (lit "helper_test.go") demo_store _
              Hh Hb eq_refl eq_refl Hs Hne) as (Hc & Hv & _ & _).
  split; [exact Hc|exact Hv].
Defined.

(** C3, as stated, fails: the line ends of a file with Windows line
    ends, which lie outside the match, are rewritten. *)
Lemma C3_line_ends_are_rewritten :
  f_data (crlf_store (lit "proj/bar/main.go"))
  = lit "package foo" ++ [CR; LF] ++ lit "var x = 1" ++ [CR; LF] /\
  f_data (fst (fst (visit ascii_only (lit "proj/bar") (lit "main.go") false
                      crlf_store)) (lit "proj/bar/main.go"))
  = lit "package bar" ++ [LF] ++ lit "var x = 1" ++ [LF] /\
  f_data (fst (fst (visit ascii_only (lit "proj/bar") (lit "main.go") false
                      crlf_store)) (lit "proj/bar/main.go"))
  <> lit "package bar" ++ [CR; LF] ++ lit "var x = 1" ++ [CR; LF].
Proof. vm_compute. repeat split. discriminate. Qed.

(** C4: no exception leaves the walk; an exception raised while a file
    is read or processed is caught for that file alone, gives exactly
    one warning with the path and the reason, and the files after it are
    visited as they would have been; in particular for a file that
    cannot be read. *)
Theorem C4_failures_are_contained uni_alnum walked dry_run fs :
  (exists fs' out, walk_loop uni_alnum walked dry_run fs = (fs', out, inr tt)) /\
  (forall before dirpath fl1 filename fl2 after fs1 out1 fsx outx e,
     walked = before ++ (dirpath, fl1 ++ filename :: fl2) :: after ->
     handled dirpath filename ->
     walk_loop uni_alnum (before ++ [(dirpath, fl1)]) dry_run fs
     = (fs1, out1, inr tt) ->
     try_body uni_alnum (path_join dirpath filename) (basename dirpath)
       filename dry_run fs1 = (fsx, outx, inl e) ->
     exists fs2 out2,
       walk_loop uni_alnum ((dirpath, fl2) :: after) dry_run fs1
       = (fs2, out2, inr tt) /\
       walk_loop uni_alnum walked dry_run fs
       = (fs2, out1 ++ Skipped (path_join dirpath filename) e :: out2, inr tt)) /\
  (forall dirpath filename reason,
     handled dirpath filename ->
     f_read_error (fs (path_join dirpath filename)) = Some reason ->
     visit uni_alnum dirpath filename dry_run fs
     = (fs, [Skipped (path_join dirpath filename) (OSError reason)], inr tt)).
Proof.
  split; [|split].
  - rewrite walk_loop_run. eexists. eexists. reflexivity.
  - intros before dirpath fl1 filename fl2 after fs1 out1 fsx outx e
      -> Hh Hbefore Hraise.
    rewrite walk_loop_run in Hbefore. injection Hbefore as Hfs1 Hout1.
    pose proof (try_body_raises _ _ _ _ _ _ _ _ Hh Hraise) as Hv.
    rewrite !walk_loop_run. eexists. eexists. split; [reflexivity|].
    rewrite visits_split, run_all_app. rewrite Hfs1, Hout1.
    change (run_all (visit_of uni_alnum dry_run)
              ((dirpath, filename) :: visits ((dirpath, fl2) :: after)) fs1)
      with (let r := visit uni_alnum dirpath filename dry_run fs1 in
            let r' := run_all (visit_of uni_alnum dry_run)
                        (visits ((dirpath, fl2) :: after)) (fst (fst r)) in
            (fst r', snd (fst r) ++ snd r')).
    rewrite Hv. reflexivity.
  - intros dirpath filename reason Hh Hr. rewrite visit_eq.
    unfold visit_result. rewrite (visit_handled dirpath filename Hh), Hr.
    reflexivity.
Qed.

Lemma C4_witness :
  (exists fs' out,
     walk_loop ascii_only (os_walk (lit "proj") demo_tree) false demo_store
     = (fs', out, inr tt)) /\
  (exists fs2 out2,
     walk_loop ascii_only
       [(lit "proj/core", [lit "doc.go"]);
        (lit "proj/widgets", [lit "widgets_test.go"; lit "helper_test.go"])]
       false demo_store
     = (fs2, out2, inr tt) /\
     walk_loop ascii_only (os_walk (lit "proj") demo_tree) false demo_store
     = (fs2,
        [] ++ Skipped (path_join (lit "proj/core") (lit "locked.go"))
                (OSError (lit "Permission denied")) :: out2,
        inr tt)) /\
  visit ascii_only (lit "proj/core") (lit "locked.go") false demo_store
  = (demo_store,
     [Skipped (path_join (lit "proj/core") (lit "locked.go"))
        (OSError (lit "Permission denied"))], inr tt).
Proof.
  destruct (C4_failures_are_contained ascii_only
              (os_walk (lit "proj") demo_tree) false demo_store)
    as (Hall & Hone & Hread).
  assert (Hh : handled (lit "proj/core") (lit "locked.go"))
    by (split; [reflexivity|vm_compute; discriminate]).
  split; [exact Hall|]. split.
  - apply (Hone [(lit "proj", [])] (lit "proj/core") [lit "core.go"]
             (lit "locked.go") [lit "doc.go"]
             [(lit "proj/widgets", [lit "widgets_test.go"; lit "helper_test.go"])]
             demo_store [] demo_store []
             (OSError (lit "Permission denied"))).
    + reflexivity.
    + exact Hh.
    + vm_compute. reflexivity.
    + vm_compute. reflexivity.
  - apply (Hread (lit "proj/core") (lit "locked.go") (lit "Permission denied") Hh).
    reflexivity.
Defined.

(** C5: in preview mode no file is written, whatever the root, the tree
    and the number of mismatches; a file with a mismatch gets one
    dry-run message with its path, the old and the new identifier, and
    nothing else. *)
Theorem C5_preview_writes_nothing uni_alnum tree root_dir fs :
  (exists out, fix_package_names uni_alnum tree root_dir true fs
               = (fs, out, inr tt)) /\
  (forall dirpath filename m,
     handled dirpath filename ->
     readable fs (path_join dirpath filename) ->
     search uni_alnum (content_of fs (path_join dirpath filename)) = Some m ->
     group1 m <> expected_for dirpath filename (group1 m) ->
     visit uni_alnum dirpath filename true fs
     = (fs, [WouldUpdate (path_join dirpath filename) (group1 m)
               (expected_for dirpath filename (group1 m))], inr tt)).
Proof.
  split.
  - unfold fix_package_names. rewrite walk_loop_run.
    rewrite run_all_preview_keeps. eexists. reflexivity.
  - intros dirpath filename m Hh Hr Hs Hne. rewrite visit_eq.
    unfold visit_result. rewrite (visit_handled dirpath filename Hh).
    unfold readable in Hr. rewrite Hr, Hs.
    fold (expected_for dirpath filename (group1 m)).
    apply text_eqb_neq in Hne. rewrite Hne. reflexivity.
Qed.

Lemma C5_witness :
  (exists out,
     fix_package_names ascii_only demo_tree (lit "proj") true demo_store
     = (demo_store, out, inr tt)) /\
  handled (lit "proj/widgets") (lit "widgets_test.go") /\
  visit ascii_only (lit "proj/widgets") (lit "widgets_test.go") true demo_store
  = (demo_store,
     [WouldUpdate (lit "proj/widgets/widgets_test.go") (lit "widget_test")
        (lit "widgets_test")], inr tt).
Proof.
  destruct (C5_preview_writes_nothing ascii_only demo_tree (lit "proj")
              demo_store) as [Hrun Hfile].
  split; [exact Hrun|].
  assert (Hh : handled (lit "proj/widgets") (lit "widgets_test.go"))
    by (split; [reflexivity|vm_compute; discriminate]).
  split; [exact Hh|].
  apply (Hfile (lit "proj/widgets") (lit "widgets_test.go")
           (mkMatch [] [32%N] (lit "widget_test") [LF]) Hh).
  - reflexivity.
  - vm_compute. reflexivity.
  - vm_compute. discriminate.
Defined.

(** C6: a readable file whose content has no line matching the
    package-declaration pattern is skipped silently, in preview and in
    apply mode: nothing is written and nothing is printed. *)
Theorem C6_no_declaration_is_skipped_silently
  uni_alnum dirpath filename dry_run fs :
  readable fs (path_join dirpath filename) ->
  search uni_alnum (content_of fs (path_join dirpath filename)) = None ->
  visit uni_alnum dirpath filename dry_run fs = (fs, [], inr tt).
Proof.
  intros Hr Hs. rewrite visit_eq. unfold visit_result.
  destruct (negb (endswith filename go_ext) || is_empty (basename dirpath));
    [reflexivity|].
  unfold readable in Hr. rewrite Hr, Hs. reflexivity.
Qed.

Lemma C6_witness :
  readable demo_store (path_join (lit "proj/core") (lit "doc.go")) /\
  search ascii_only
    (content_of demo_store (path_join (lit "proj/core") (lit "doc.go"))) = None /\
  visit ascii_only (lit "proj/core") (lit "doc.go") false demo_store
  = (demo_store, [], inr tt).
Proof.
  assert (H1 : readable demo_store (path_join (lit "proj/core") (lit "doc.go")))
    by reflexivity.
  assert (H2 : search ascii_only
                 (content_of demo_store
                    (path_join (lit "proj/core") (lit "doc.go"))) = None)
    by (vm_compute; reflexivity).
  split; [exact H1|]. split; [exact H2|].
  exact (C6_no_declaration_is_skipped_silently ascii_only (lit "proj/core")
           (lit "doc.go") false demo_store H1 H2).
Defined.

(** C7: a file whose declared identifier is already the expected one is
    left alone, in preview and in apply mode: nothing is written and
    nothing is printed. *)
Theorem C7_matching_declaration_is_left_alone
  uni_alnum dirpath filename dry_run fs m :
  readable fs (path_join dirpath filename) ->
  search uni_alnum (content_of fs (path_join dirpath filename)) = Some m ->
  group1 m = expected_for dirpath filename (group1 m) ->
  visit uni_alnum dirpath filename dry_run fs = (fs, [], inr tt).
Proof.
  intros Hr Hs He. rewrite visit_eq. unfold visit_result.
  destruct (negb (endswith filename go_ext) || is_empty (basename dirpath));
    [reflexivity|].
  unfold readable in Hr. rewrite Hr, Hs.
  fold (expected_for dirpath filename (group1 m)).
  apply text_eqb_eq in He. rewrite He. reflexivity.
Qed.

Lemma C7_witness :
  readable demo_store (path_join (lit "proj/core") (lit "core.go")) /\
  search ascii_only
    (content_of demo_store (path_join (lit "proj/core") (lit "core.go")))
  = Some (mkMatch [] [32%N] (lit "core") [LF]) /\
  lit "core" = expected_for (lit "proj/core") (lit "core.go") (lit "core") /\
  visit ascii_only (lit "proj/core") (lit "core.go") false demo_store
  = (demo_store, [], inr tt).
Proof.
  assert (H1 : readable demo_store (path_join (lit "proj/core") (lit "core.go")))
    by reflexivity.
  assert (H2 : search ascii_only
                 (content_of demo_store
                    (path_join (lit "proj/core") (lit "core.go")))
               = Some (mkMatch [] [32%N] (lit "core") [LF]))
    by (vm_compute; reflexivity).
  assert (H3 : lit "core"
               = expected_for (lit "proj/core") (lit "core.go") (lit "core"))
    by (vm_compute; reflexivity).
  split; [exact H1|]. split; [exact H2|]. split; [exact H3|].
  exact (C7_matching_declaration_is_left_alone ascii_only (lit "proj/core")
           (lit "core.go") false demo_store _ H1 H2 H3).
Defined.

(** C8: a file of a directory whose basename is empty is skipped before
    it is read, written or reported; a root given with a trailing
    separator is such a directory; the walk from it is the walk of its
    sub-directories, each under a path whose basename is its own
    name. *)
Theorem C8_unnamed_folder_is_skipped uni_alnum :
  (forall dirpath filename dry_run fs,
     basename dirpath = [] ->
     visit uni_alnum dirpath filename dry_run fs = (fs, [], inr tt)) /\
  (forall root, basename (root ++ [SLASH]) = []) /\
  (forall root filenames subdirs dry_run fs,
     fix_package_names uni_alnum (Dir filenames subdirs) (root ++ [SLASH])
       dry_run fs
     = walk_loop uni_alnum
         (flat_map (fun entry =>
                      os_walk (path_join (root ++ [SLASH]) (fst entry))
                        (snd entry)) subdirs) dry_run fs) /\
  (forall top name, ~ In SLASH name -> basename (path_join top name) = name).
Proof.
  assert (Hskip : forall dirpath filename dry_run fs,
             basename dirpath = [] ->
             visit uni_alnum dirpath filename dry_run fs = (fs, [], inr tt)).
  { intros dirpath filename dry_run fs Hb. rewrite visit_eq.
    unfold visit_result. rewrite Hb. simpl. rewrite orb_true_r. reflexivity. }
  split; [exact Hskip|]. split; [exact basename_trailing_slash|].
  split; [|exact basename_join].
  intros root filenames subdirs dry_run fs.
  unfold fix_package_names. simpl os_walk. unfold walk_loop at 1.
  simpl for_each. unfold bind at 1. simpl fst. simpl snd.
  rewrite for_each_skips
    by (intros x fs0; apply Hskip; apply basename_trailing_slash).
  unfold walk_loop.
  destruct (for_each _ _ fs) as [[fs2 out2] r]. reflexivity.
Qed.

Lemma C8_witness :
  basename (lit "proj/") = [] /\
  visit ascii_only (lit "proj/") (lit "main.go") false
    (store_of [(lit "proj/main.go", plain_file (lit "package main"))])
  = (store_of [(lit "proj/main.go", plain_file (lit "package main"))], [],
     inr tt) /\
  ~ In SLASH (lit "core") /\
  basename (path_join (lit "proj/") (lit "core")) = lit "core".
Proof.
  destruct (C8_unnamed_folder_is_skipped ascii_only)
    as (Hskip & Hroot & _ & Hsub).
  assert (H1 : basename (lit "proj/") = []) by exact (Hroot (lit "proj")).
  assert (H2 : ~ In SLASH (lit "core"))
    by (vm_compute; intuition discriminate).
  split; [exact H1|]. split; [apply Hskip; exact H1|].
  split; [exact H2|]. apply Hsub. exact H2.
Defined.

(** C9: in a folder named [a\1] the match is not replaced by
    [package a\1]: the template reads [\1] as group 1, the file ends up
    declaring [amain], and the message names [a\1]. *)
Lemma C9_backslash_folder_name :
  visit ascii_only (lit "proj/a\1") (lit "main.go") false backslash_store
  = (update backslash_store (lit "proj/a\1/main.go")
       (mkFile (lit "package amain" ++ [LF]) None None),
     [Updated (lit "proj/a\1/main.go") (lit "main") (lit "a\1")],
     inr tt).
Proof. vm_compute. reflexivity. Qed.

(** C10: what happens to a file depends on the name of its folder, its
    own name, the mode and the file only: two visits that agree on these
    leave the same file, print the same messages but for the path they
    name, and print the very same messages when the paths agree too. *)
Theorem C10_visit_depends_on_its_inputs_only
  uni_alnum d1 d2 filename dry_run fs1 fs2 :
  basename d1 = basename d2 ->
  fs1 (path_join d1 filename) = fs2 (path_join d2 filename) ->
  fst (fst (visit uni_alnum d1 filename dry_run fs1)) (path_join d1 filename)
  = fst (fst (visit uni_alnum d2 filename dry_run fs2)) (path_join d2 filename) /\
  map (retarget (path_join d2 filename))
    (snd (fst (visit uni_alnum d1 filename dry_run fs1)))
  = snd (fst (visit uni_alnum d2 filename dry_run fs2)) /\
  snd (visit uni_alnum d1 filename dry_run fs1)
  = snd (visit uni_alnum d2 filename dry_run fs2) /\
  (d1 = d2 ->
   snd (fst (visit uni_alnum d1 filename dry_run fs1))
   = snd (fst (visit uni_alnum d2 filename dry_run fs2))).
Proof.
  intros Hb Hf. rewrite !visit_eq. unfold visit_result, content_of.
  rewrite <- Hb, <- Hf.
  destruct (negb (endswith filename go_ext) || is_empty (basename d1));
    [simpl; auto|].
  destruct (f_read_error (fs1 (path_join d1 filename)));
    [simpl; repeat split; auto; intros ->; reflexivity|].
  destruct (search uni_alnum _) as [m|]; [|simpl; auto].
  destruct (text_eqb (group1 m) _); [simpl; auto|].
  destruct dry_run; [simpl; repeat split; auto; intros ->; reflexivity|].
  destruct (sub uni_alnum _ _) as [e|new_content];
    [simpl; repeat split; auto; intros ->; reflexivity|].
  destruct (f_write_error (fs1 (path_join d1 filename)));
    [simpl; repeat split; auto; intros ->; reflexivity|].
  simpl. rewrite !update_same. repeat split; auto. intros ->. reflexivity.
Qed.

Lemma C10_witness :
  basename (lit "left/widgets") = basename (lit "right/widgets") /\
  store_of [(lit "left/widgets/w.go", plain_file (lit "package w"))]
    (path_join (lit "left/widgets") (lit "w.go"))
  = store_of [(lit "right/widgets/w.go", plain_file (lit "package w"))]
      (path_join (lit "right/widgets") (lit "w.go")) /\
  map (retarget (path_join (lit "right/widgets") (lit "w.go")))
    (snd (fst (visit ascii_only (lit "left/widgets") (lit "w.go") false
                 (store_of [(lit "left/widgets/w.go",
                             plain_file (lit "package w"))]))))
  = snd (fst (visit ascii_only (lit "right/widgets") (lit "w.go") false
                (store_of [(lit "right/widgets/w.go",
                            plain_file (lit "package w"))]))).
Proof.
  assert (H1 : basename (lit "left/widgets") = basename (lit "right/widgets"))
    by reflexivity.
  assert (H2 : store_of [(lit "left/widgets/w.go", plain_file (lit "package w"))]
                 (path_join (lit "left/widgets") (lit "w.go"))
               = store_of [(lit "right/widgets/w.go",
                            plain_file (lit "package w"))]
                   (path_join (lit "right/widgets") (lit "w.go")))
    by reflexivity.
  split; [exact H1|]. split; [exact H2|].
  exact (proj1 (proj2 (C10_visit_depends_on_its_inputs_only ascii_only
                         (lit "left/widgets") (lit "right/widgets") (lit "w.go")
                         false _ _ H1 H2))).
Defined.

(** * Further properties *)

(** ** One visit, seen from the files *)

(** A visit looks at one file only. *)
Lemma visit_local uni_alnum dirpath filename dry_run fs :
  snd (fst (visit uni_alnum dirpath filename dry_run fs))
  = lines_for uni_alnum dirpath filename dry_run (fs (path_join dirpath filename)) /\
  fst (fst (visit uni_alnum dirpath filename dry_run fs))
    (path_join dirpath filename)
  = file_after uni_alnum dirpath filename dry_run
      (fs (path_join dirpath filename)).
Proof.
  unfold lines_for, file_after. rewrite !visit_eq.
  unfold visit_result, content_of. cbn beta.
  destruct (negb (endswith filename go_ext) || is_empty (basename dirpath));
    [split; reflexivity|].
  destruct (f_read_error (fs (path_join dirpath filename)));
    [split; reflexivity|].
  destruct (search uni_alnum _) as [m|]; [|split; reflexivity].
  destruct (text_eqb (group1 m) _); [split; reflexivity|].
  destruct dry_run; [split; reflexivity|].
  destruct (sub uni_alnum _ _) as [e|new_content]; [split; reflexivity|].
  destruct (f_write_error (fs (path_join dirpath filename)));
    [split; reflexivity|].
  cbn [fst snd]. rewrite !update_same. split; reflexivity.
Qed.

(** A visit changes no file but the one it works on. *)
Lemma visit_frame uni_alnum dirpath filename dry_run fs q :
  (handled dirpath filename -> path_join dirpath filename <> q) ->
  fst (fst (visit uni_alnum dirpath filename dry_run fs)) q = fs q.
Proof.
  intros Hq. rewrite visit_eq. unfold visit_result.
  destruct (negb (endswith filename go_ext) || is_empty (basename dirpath))
    eqn:Hh; [reflexivity|].
  assert (Hne : q <> path_join dirpath filename).
  { intros ->. apply Hq; [|reflexivity].
    apply orb_false_iff in Hh. destruct Hh as [Hgo Hdir].
    apply negb_false_iff in Hgo. apply is_empty_false in Hdir.
    split; assumption. }
  split_matches; try reflexivity.
  cbn [fst]. apply update_other. exact Hne.
Qed.

(** A visit prints one message at most, about the file it works on. *)
Lemma visit_lines uni_alnum dirpath filename dry_run fs :
  snd (fst (visit uni_alnum dirpath filename dry_run fs)) = [] \/
  exists m,
    snd (fst (visit uni_alnum dirpath filename dry_run fs)) = [m] /\
    handled dirpath filename /\
    message_path m = path_join dirpath filename.
Proof.
  rewrite visit_eq. unfold visit_result.
  destruct (negb (endswith filename go_ext) || is_empty (basename dirpath))
    eqn:Hh; [left; reflexivity|].
  assert (Hhandled : handled dirpath filename).
  { apply orb_false_iff in Hh. destruct Hh as [Hgo Hdir].
    apply negb_false_iff in Hgo. apply is_empty_false in Hdir.
    split; assumption. }
  split_matches; cbn [fst snd];
    try (left; reflexivity);
    right; eexists; (split; [reflexivity|split; [exact Hhandled|reflexivity]]).
Qed.

(** A visit that changes a file says so. *)
Lemma visit_reports uni_alnum dirpath filename dry_run fs q :
  fst (fst (visit uni_alnum dirpath filename dry_run fs)) q = fs q \/
  exists a b,
    In (Updated q a b) (snd (fst (visit uni_alnum dirpath filename dry_run fs))).
Proof.
  destruct (text_eq_dec q (path_join dirpath filename)) as [->|Hq].
  - rewrite visit_eq. unfold visit_result.
    split_matches; cbn [fst snd]; try (left; reflexivity).
    right. eexists. eexists. left. reflexivity.
  - left. apply visit_frame. intros _ Heq. apply Hq. symmetry. exact Heq.
Qed.

(** ** The walk, seen from the files *)

Lemma run_all_frame uni_alnum dry_run q l : forall fs,
  (forall v, In v l -> handled (fst v) (snd v) -> path_of v <> q) ->
  fst (run_all (visit_of uni_alnum dry_run) l fs) q = fs q.
Proof.
  induction l as [|v l IH]; intros fs Hq; [reflexivity|].
  cbn [run_all fst]. rewrite IH.
  - apply visit_frame. apply Hq. left. reflexivity.
  - intros w Hw. apply Hq. right. exact Hw.
Qed.

Lemma run_all_reports uni_alnum dry_run q l : forall fs,
  fst (run_all (visit_of uni_alnum dry_run) l fs) q = fs q \/
  exists a b,
    In (Updated q a b) (snd (run_all (visit_of uni_alnum dry_run) l fs)).
Proof.
  induction l as [|v l IH]; intros fs; [left; reflexivity|].
  cbn [run_all fst snd].
  change (visit_of uni_alnum dry_run v fs)
    with (visit uni_alnum (fst v) (snd v) dry_run fs).
  destruct (IH (fst (fst (visit uni_alnum (fst v) (snd v) dry_run fs))))
    as [Hrest|(a & b & Hin)].
  - destruct (visit_reports uni_alnum (fst v) (snd v) dry_run fs q)
      as [Hv|(a & b & Hin)].
    + left. rewrite Hrest. exact Hv.
    + right. exists a, b. apply in_or_app. left. exact Hin.
  - right. exists a, b. apply in_or_app. right. exact Hin.
Qed.

Lemma run_all_lines uni_alnum dry_run l : forall fs,
  Forall (fun m => exists v, In v l /\ handled (fst v) (snd v) /\
                             message_path m = path_of v)
    (snd (run_all (visit_of uni_alnum dry_run) l fs)) /\
  length (snd (run_all (visit_of uni_alnum dry_run) l fs)) <= length l.
Proof.
  induction l as [|v l IH]; intros fs; [split; [constructor|apply Nat.le_refl]|].
  cbn [run_all fst snd].
  change (visit_of uni_alnum dry_run v fs)
    with (visit uni_alnum (fst v) (snd v) dry_run fs).
  destruct (IH (fst (fst (visit uni_alnum (fst v) (snd v) dry_run fs))))
    as [IH1 IH2].
  assert (IH1' : Forall (fun m => exists w, In w (v :: l) /\
                                   handled (fst w) (snd w) /\
                                   message_path m = path_of w)
                   (snd (run_all (visit_of uni_alnum dry_run) l
                           (fst (fst (visit uni_alnum (fst v) (snd v)
                                        dry_run fs)))))).
  { revert IH1. apply Forall_impl. intros m (w & Hw & Hh & Hp).
    exists w. split; [right; exact Hw|split; assumption]. }
  destruct (visit_lines uni_alnum (fst v) (snd v) dry_run fs)
    as [Hnil|(m & Hm & Hh & Hp)].
  - rewrite Hnil. cbn [app length]. split; [exact IH1'|]. lia.
  - rewrite Hm. cbn [app length]. split; [|lia].
    constructor; [|exact IH1'].
    exists v. split; [left; reflexivity|split; assumption].
Qed.

(** X1: a run, in either mode, leaves every file as it was, except the
    Go files in named folders that the walk lists. *)
Theorem X1_unlisted_files_are_untouched
  uni_alnum tree root_dir dry_run fs q :
  (forall v, In v (visits (os_walk root_dir tree)) ->
     handled (fst v) (snd v) -> path_of v <> q) ->
  fst (fst (fix_package_names uni_alnum tree root_dir dry_run fs)) q = fs q.
Proof.
  intros Hq. unfold fix_package_names. rewrite walk_loop_run. cbn [fst].
  apply run_all_frame. exact Hq.
Qed.

Lemma X1_witness :
  fst (fst (fix_package_names ascii_only demo_tree (lit "proj") false
              demo_store)) (lit "proj/core/notes.txt")
  = demo_store (lit "proj/core/notes.txt").
Proof.
  apply (X1_unlisted_files_are_untouched ascii_only demo_tree (lit "proj")
           false demo_store (lit "proj/core/notes.txt")).
  intros v Hv _. vm_compute in Hv.
  repeat (destruct Hv as [<-|Hv]; [vm_compute; discriminate|]).
  destruct Hv.
Defined.

(** X2: every change is reported: a file that a run leaves different
    from what it was is named by an update message of that run. *)
Theorem X2_every_change_is_reported uni_alnum tree root_dir dry_run fs q :
  fst (fst (fix_package_names uni_alnum tree root_dir dry_run fs)) q <> fs q ->
  exists a b,
    In (Updated q a b)
      (snd (fst (fix_package_names uni_alnum tree root_dir dry_run fs))).
Proof.
  unfold fix_package_names. rewrite walk_loop_run. cbn [fst snd].
  intros Hne.
  destruct (run_all_reports uni_alnum dry_run q
              (visits (os_walk root_dir tree)) fs) as [Hsame|Hin];
    [contradiction|exact Hin].
Qed.

Lemma X2_witness :
  exists a b,
    In (Updated (lit "proj/widgets/helper_test.go") a b)
      (snd (fst (fix_package_names ascii_only demo_tree (lit "proj") false
                   demo_store))).
Proof.
  apply (X2_every_change_is_reported ascii_only demo_tree (lit "proj") false
           demo_store (lit "proj/widgets/helper_test.go")).
  vm_compute. discriminate.
Defined.

(** X3: a run prints at most one message per file listed, and every
    message names a Go file in a named folder that the walk lists. *)
Theorem X3_messages_name_listed_go_files
  uni_alnum tree root_dir dry_run fs :
  Forall (fun m => exists v, In v (visits (os_walk root_dir tree)) /\
                             handled (fst v) (snd v) /\
                             message_path m = path_of v)
    (snd (fst (fix_package_names uni_alnum tree root_dir dry_run fs))) /\
  length (snd (fst (fix_package_names uni_alnum tree root_dir dry_run fs)))
  <= length (visits (os_walk root_dir tree)).
Proof.
  unfold fix_package_names. rewrite walk_loop_run. cbn [fst snd].
  apply run_all_lines.
Qed.

(** ** Files are worked on one by one *)

Lemma flat_map_agree {A B} (f g : A -> list B) (l : list A) :
  (forall x, In x l -> f x = g x) -> flat_map f l = flat_map g l.
Proof.
  induction l as [|x l IH]; intros H; [reflexivity|].
  simpl. rewrite (H x (or_introl eq_refl)), IH; [reflexivity|].
  intros y Hy. apply H. right. exact Hy.
Qed.

Lemma map_flat_map {A B C} (h : B -> C) (g : A -> list B) (l : list A) :
  map h (flat_map g l) = flat_map (fun x => map h (g x)) l.
Proof.
  induction l as [|x l IH]; [reflexivity|].
  simpl. rewrite map_app, IH. reflexivity.
Qed.

(** When no path is listed twice, the walk does to each file what a
    visit of that file alone does, and prints what those visits print,
    in the order of the walk. *)
Lemma run_all_independent uni_alnum dry_run l :
  NoDup (map path_of l) ->
  forall fs,
    snd (run_all (visit_of uni_alnum dry_run) l fs)
    = flat_map (fun v => lines_for uni_alnum (fst v) (snd v) dry_run
                           (fs (path_of v))) l /\
    forall v, In v l ->
      fst (run_all (visit_of uni_alnum dry_run) l fs) (path_of v)
      = file_after uni_alnum (fst v) (snd v) dry_run (fs (path_of v)).
Proof.
  induction l as [|x l IH]; intros Hnd fs; [split; [reflexivity|intros v []]|].
  simpl in Hnd. inversion Hnd as [|? ? Hx Hnd']; subst.
  cbn [run_all fst snd].
  change (visit_of uni_alnum dry_run x fs)
    with (visit uni_alnum (fst x) (snd x) dry_run fs).
  destruct (IH Hnd' (fst (fst (visit uni_alnum (fst x) (snd x) dry_run fs))))
    as [IHout IHfs].
  destruct (visit_local uni_alnum (fst x) (snd x) dry_run fs) as [Hlines Hfile].
  assert (Hsame : forall w, In w l ->
            fst (fst (visit uni_alnum (fst x) (snd x) dry_run fs)) (path_of w)
            = fs (path_of w)).
  { intros w Hw. apply visit_other. intros Heq. apply Hx.
    change (path_join (fst x) (snd x)) with (path_of x) in Heq.
    rewrite <- Heq. apply in_map. exact Hw. }
  split.
  - rewrite IHout, Hlines. cbn [flat_map]. f_equal.
    apply flat_map_agree. intros w Hw. rewrite (Hsame w Hw). reflexivity.
  - intros v [<-|Hv].
    + rewrite run_all_other by exact Hx. exact Hfile.
    + rewrite (IHfs v Hv), (Hsame v Hv). reflexivity.
Qed.

(** In a folder whose name holds no backslash, and for a file that can
    be written if it can be read, apply mode prints what preview mode
    prints, as done instead of as to do. *)
Lemma lines_confirmed uni_alnum dirpath filename fl :
  (handled dirpath filename -> ~ In BACKSLASH (basename dirpath)) ->
  (f_read_error fl = None -> f_write_error fl = None) ->
  lines_for uni_alnum dirpath filename false fl
  = map confirmed (lines_for uni_alnum dirpath filename true fl).
Proof.
  intros Hb Hw. unfold lines_for. rewrite !visit_eq.
  unfold visit_result, content_of. cbn beta.
  destruct (negb (endswith filename go_ext) || is_empty (basename dirpath))
    eqn:Hh; [reflexivity|].
  assert (Hhandled : handled dirpath filename).
  { apply orb_false_iff in Hh. destruct Hh as [Hgo Hdir].
    apply negb_false_iff in Hgo. apply is_empty_false in Hdir.
    split; assumption. }
  destruct (f_read_error fl) eqn:Hr; [reflexivity|].
  destruct (search uni_alnum (universal_newlines (f_data fl))) as [m|] eqn:Hs;
    [|reflexivity].
  destruct (text_eqb (group1 m) _); [reflexivity|].
  rewrite (sub_plain uni_alnum _ _ m); [| |exact Hs].
  - rewrite (Hw eq_refl). reflexivity.
  - apply replacement_plain.
    apply expected_package_plain;
      try (unfold BACKSLASH, UNDERSCORE; discriminate).
    apply Hb. exact Hhandled.
Qed.

(** X4: when the walk lists no path twice, a run does to each listed
    file what a visit of that file alone does to it, and prints what
    those visits print, file by file in the order of the walk. *)
Theorem X4_files_are_worked_on_independently
  uni_alnum tree root_dir dry_run fs :
  NoDup (map path_of (visits (os_walk root_dir tree))) ->
  snd (fst (fix_package_names uni_alnum tree root_dir dry_run fs))
  = flat_map (fun v => lines_for uni_alnum (fst v) (snd v) dry_run
                         (fs (path_of v)))
      (visits (os_walk root_dir tree)) /\
  forall v, In v (visits (os_walk root_dir tree)) ->
    fst (fst (fix_package_names uni_alnum tree root_dir dry_run fs)) (path_of v)
    = file_after uni_alnum (fst v) (snd v) dry_run (fs (path_of v)).
Proof.
  intros Hnd. unfold fix_package_names. rewrite walk_loop_run. cbn [fst snd].
  apply run_all_independent. exact Hnd.
Qed.

Lemma X4_witness :
  NoDup (map path_of (visits (os_walk (lit "proj") demo_tree))) /\
  snd (fst (fix_package_names ascii_only demo_tree (lit "proj") false
              demo_store))
  = flat_map (fun v => lines_for ascii_only (fst v) (snd v) false
                         (demo_store (path_of v)))
      (visits (os_walk (lit "proj") demo_tree)).
Proof.
  assert (Hnd : NoDup (map path_of (visits (os_walk (lit "proj") demo_tree)))).
  { vm_compute. repeat constructor; simpl; intuition discriminate. }
  split; [exact Hnd|].
  exact (proj1 (X4_files_are_worked_on_independently ascii_only demo_tree
                  (lit "proj") false demo_store Hnd)).
Defined.

(** X5: the order of the walk does not matter: two walks that list the
    same files, each once, in different orders leave the same files and
    print the same messages, in a different order at most. *)
Theorem X5_order_of_the_walk_does_not_matter
  uni_alnum walked1 walked2 dry_run fs :
  Permutation (visits walked1) (visits walked2) ->
  NoDup (map path_of (visits walked1)) ->
  (forall q,
     fst (fst (walk_loop uni_alnum walked1 dry_run fs)) q
     = fst (fst (walk_loop uni_alnum walked2 dry_run fs)) q) /\
  Permutation (snd (fst (walk_loop uni_alnum walked1 dry_run fs)))
    (snd (fst (walk_loop uni_alnum walked2 dry_run fs))).
Proof.
  intros Hperm Hnd1. rewrite !walk_loop_run. cbn [fst snd].
  assert (Hnd2 : NoDup (map path_of (visits walked2))).
  { apply (Permutation_NoDup (l := map path_of (visits walked1)));
      [apply Permutation_map; exact Hperm|exact Hnd1]. }
  destruct (run_all_independent uni_alnum dry_run (visits walked1) Hnd1 fs)
    as [Hout1 Hfs1].
  destruct (run_all_independent uni_alnum dry_run (visits walked2) Hnd2 fs)
    as [Hout2 Hfs2].
  split.
  - intros q.
    destruct (in_dec text_eq_dec q (map path_of (visits walked1))) as [Hin|Hout].
    + apply in_map_iff in Hin. destruct Hin as (v & <- & Hv).
      rewrite (Hfs1 v Hv). symmetry. apply Hfs2.
      apply (Permutation_in (l := visits walked1)); assumption.
    + rewrite run_all_other by exact Hout. symmetry. apply run_all_other.
      intros Hin. apply Hout.
      apply (Permutation_in (l := map path_of (visits walked2)));
        [apply Permutation_map; apply Permutation_sym; exact Hperm|exact Hin].
  - rewrite Hout1, Hout2. apply Permutation_flat_map. exact Hperm.
Qed.

Lemma X5_witness :
  Permutation
    (visits [(lit "proj/core", [lit "core.go"; lit "doc.go"]);
             (lit "proj/widgets", [lit "helper_test.go"])])
    (visits [(lit "proj/widgets", [lit "helper_test.go"]);
             (lit "proj/core", [lit "doc.go"; lit "core.go"])]) /\
  Permutation
    (snd (fst (walk_loop ascii_only
                 [(lit "proj/core", [lit "core.go"; lit "doc.go"]);
                  (lit "proj/widgets", [lit "helper_test.go"])]
                 false demo_store)))
    (snd (fst (walk_loop ascii_only
                 [(lit "proj/widgets", [lit "helper_test.go"]);
                  (lit "proj/core", [lit "doc.go"; lit "core.go"])]
                 false demo_store))).
Proof.
  assert (Hperm : Permutation
    (visits [(lit "proj/core", [lit "core.go"; lit "doc.go"]);
             (lit "proj/widgets", [lit "helper_test.go"])])
    (visits [(lit "proj/widgets", [lit "helper_test.go"]);
             (lit "proj/core", [lit "doc.go"; lit "core.go"])])).
  { cbn [visits flat_map map fst snd app].
    apply (perm_trans (l' := [(lit "proj/core", lit "core.go");
                              (lit "proj/widgets", lit "helper_test.go");
                              (lit "proj/core", lit "doc.go")])).
    - apply perm_skip. apply perm_swap.
    - apply (perm_trans (l' := [(lit "proj/widgets", lit "helper_test.go");
                                (lit "proj/core", lit "core.go");
                                (lit "proj/core", lit "doc.go")])).
      + apply perm_swap.
      + apply perm_skip. apply perm_swap. }
  split; [exact Hperm|].
  apply (X5_order_of_the_walk_does_not_matter ascii_only _ _ false demo_store
           Hperm).
  vm_compute. repeat constructor; simpl; intuition discriminate.
Defined.

(** X6: preview tells what apply does: when the walk lists no path
    twice, no folder name holds a backslash, and every file that can be
    read can be written, the messages of apply mode are those of preview
    mode, each update announced being an update done. *)
Theorem X6_preview_tells_what_apply_does uni_alnum tree root_dir fs :
  NoDup (map path_of (visits (os_walk root_dir tree))) ->
  (forall v, In v (visits (os_walk root_dir tree)) ->
     handled (fst v) (snd v) -> ~ In BACKSLASH (basename (fst v))) ->
  (forall v, In v (visits (os_walk root_dir tree)) ->
     readable fs (path_of v) -> writable fs (path_of v)) ->
  snd (fst (fix_package_names uni_alnum tree root_dir false fs))
  = map confirmed
      (snd (fst (fix_package_names uni_alnum tree root_dir true fs))).
Proof.
  intros Hnd Hb Hw. unfold fix_package_names. rewrite !walk_loop_run.
  cbn [fst snd].
  rewrite (proj1 (run_all_independent uni_alnum false _ Hnd fs)).
  rewrite (proj1 (run_all_independent uni_alnum true _ Hnd fs)).
  rewrite map_flat_map. apply flat_map_agree. intros v Hv.
  apply lines_confirmed; [apply Hb; exact Hv|apply Hw; exact Hv].
Qed.

Lemma X6_witness :
  snd (fst (fix_package_names ascii_only hyphen_tree (lit "proj") false
              hyphen_store))
  = map confirmed
      (snd (fst (fix_package_names ascii_only hyphen_tree (lit "proj") true
                   hyphen_store))).
Proof.
  apply (X6_preview_tells_what_apply_does ascii_only hyphen_tree (lit "proj")
           hyphen_store).
  - vm_compute. repeat constructor; simpl; intuition discriminate.
  - intros v Hv _. vm_compute in Hv.
    repeat (destruct Hv as [<-|Hv]; [vm_compute; intuition discriminate|]).
    destruct Hv.
  - intros v Hv _. vm_compute in Hv.
    repeat (destruct Hv as [<-|Hv]; [reflexivity|]).
    destruct Hv.
Defined.

(** ** Runs after the first *)

(** What is expected of an expected identifier that was itself expected
    is that identifier. *)
Lemma expected_twice dirpath filename current_package :
  expected_for dirpath filename
    (expected_for dirpath filename
       (expected_for dirpath filename current_package))
  = expected_for dirpath filename
      (expected_for dirpath filename current_package).
Proof.
  unfold expected_for, expected_package_of.
  destruct (endswith filename test_go_ext); [|reflexivity].
  destruct (endswith current_package test_suffix).
  - rewrite !endswith_app. reflexivity.
  - destruct (endswith (basename dirpath) test_suffix) eqn:Hf.
    + rewrite !endswith_app. reflexivity.
    + rewrite Hf. reflexivity.
Qed.

Section Twice.

Variable uni_alnum : N -> bool.
Hypothesis disjoint : classes_disjoint uni_alnum.

(** The file a visit leaves is left alone by the next visit, when what
    is expected of the expected identifier is that identifier. *)
Lemma visit_quiet_when_fixed dirpath filename fs :
  (handled dirpath filename ->
   forallb (is_word uni_alnum) (basename dirpath) = true) ->
  (forall m,
     handled dirpath filename ->
     readable fs (path_join dirpath filename) ->
     writable fs (path_join dirpath filename) ->
     search uni_alnum (content_of fs (path_join dirpath filename)) = Some m ->
     expected_for dirpath filename (expected_for dirpath filename (group1 m))
     = expected_for dirpath filename (group1 m)) ->
  quiet uni_alnum dirpath filename
    (fst (fst (visit uni_alnum dirpath filename false fs))
       (path_join dirpath filename)).
Proof.
  intros Hwordf Hfix. rewrite visit_eq. unfold visit_result.
  destruct (negb (endswith filename go_ext) || is_empty (basename dirpath))
    eqn:Hh.
  { intros fs' _. exists []. rewrite visit_eq. unfold visit_result.
    rewrite Hh. split; [reflexivity|constructor]. }
  assert (Hhandled : handled dirpath filename).
  { apply orb_false_iff in Hh. destruct Hh as [Hgo Hdir].
    apply negb_false_iff in Hgo. apply is_empty_false in Hdir.
    split; assumption. }
  specialize (Hwordf Hhandled).
  destruct (f_read_error (fs (path_join dirpath filename))) as [reason|] eqn:Hr.
  { intros fs' Hfs'. cbn [fst] in Hfs'. eexists. rewrite visit_eq.
    unfold visit_result. rewrite Hh, Hfs', Hr.
    split; [reflexivity|]. repeat constructor. }
  destruct (search uni_alnum (content_of fs (path_join dirpath filename)))
    as [m|] eqn:Hs.
  2:{ intros fs' Hfs'. cbn [fst] in Hfs'. exists []. rewrite visit_eq.
      unfold visit_result, content_of. rewrite Hh, Hfs', Hr.
      unfold content_of in Hs. rewrite Hs. split; [reflexivity|constructor]. }
  set (expected := expected_package_of (basename dirpath)
                     (endswith filename test_go_ext)
                     (endswith (group1 m) test_suffix)).
  destruct (text_eqb (group1 m) expected) eqn:He.
  { intros fs' Hfs'. cbn [fst] in Hfs'. exists []. rewrite visit_eq.
    unfold visit_result, content_of. rewrite Hh, Hfs', Hr.
    unfold content_of in Hs. rewrite Hs. fold expected. rewrite He.
    split; [reflexivity|constructor]. }
  assert (Hword : forallb (is_word uni_alnum) expected = true).
  { apply expected_package_word. exact Hwordf. }
  assert (Hne : expected <> []).
  { apply expected_package_not_empty. apply Hhandled. }
  assert (Hplain : ~ In BACKSLASH (replacement expected)).
  { apply replacement_plain.
    apply (word_text_has_not uni_alnum); [reflexivity|exact Hword]. }
  rewrite (sub_plain uni_alnum _ _ m Hplain Hs).
  destruct (f_write_error (fs (path_join dirpath filename))) as [reason|] eqn:Hw.
  { intros fs' Hfs'. cbn [fst] in Hfs'. eexists. rewrite visit_eq.
    unfold visit_result, content_of. rewrite Hh, Hfs', Hr.
    unfold content_of in Hs. rewrite Hs. fold expected. rewrite He.
    rewrite (sub_plain uni_alnum _ _ m Hplain Hs).
    rewrite Hw. split; [reflexivity|]. repeat constructor. }
  cbn [fst]. rewrite update_same.
  intros fs' Hfs'. exists []. rewrite visit_eq.
  unfold visit_result, content_of. rewrite Hh, Hfs'.
  cbn [f_read_error f_data f_write_error].
  destruct (rewritten_search uni_alnum disjoint _ m expected Hs
              (universal_newlines_clean _) Hne Hword) as [Hun Hsearch].
  rewrite Hun, Hsearch. cbn [group1 m_id].
  specialize (Hfix m Hhandled Hr Hw eq_refl). unfold expected_for in Hfix.
  fold expected in Hfix. rewrite Hfix. rewrite text_eqb_refl.
  split; [reflexivity|constructor].
Qed.

(** After a visit, what is expected of the identifier that a readable
    and writable file declares is expected of itself. *)
Lemma visit_leaves_fixed dirpath filename fs m1 :
  handled dirpath filename ->
  forallb (is_word uni_alnum) (basename dirpath) = true ->
  readable (fst (fst (visit uni_alnum dirpath filename false fs)))
    (path_join dirpath filename) ->
  writable (fst (fst (visit uni_alnum dirpath filename false fs)))
    (path_join dirpath filename) ->
  search uni_alnum
    (content_of (fst (fst (visit uni_alnum dirpath filename false fs)))
       (path_join dirpath filename)) = Some m1 ->
  expected_for dirpath filename (expected_for dirpath filename (group1 m1))
  = expected_for dirpath filename (group1 m1).
Proof.
  intros Hhandled Hwordf. rewrite visit_eq. unfold visit_result.
  rewrite (visit_handled dirpath filename Hhandled).
  unfold readable, writable.
  destruct (f_read_error (fs (path_join dirpath filename))) as [reason|] eqn:Hr.
  { cbn [fst]. intros H. congruence. }
  destruct (search uni_alnum (content_of fs (path_join dirpath filename)))
    as [m|] eqn:Hs.
  2:{ cbn [fst]. intros _ _ H. congruence. }
  fold (expected_for dirpath filename (group1 m)).
  destruct (text_eqb (group1 m) (expected_for dirpath filename (group1 m)))
    eqn:He.
  { cbn [fst]. intros _ _ H. rewrite Hs in H. injection H as <-.
    apply text_eqb_eq in He. rewrite <- He. symmetry. exact He. }
  assert (Hword : forallb (is_word uni_alnum)
                    (expected_for dirpath filename (group1 m)) = true).
  { apply expected_package_word. exact Hwordf. }
  assert (Hne : expected_for dirpath filename (group1 m) <> []).
  { apply expected_package_not_empty. apply Hhandled. }
  assert (Hplain : ~ In BACKSLASH
                     (replacement (expected_for dirpath filename (group1 m)))).
  { apply replacement_plain.
    apply (word_text_has_not uni_alnum); [reflexivity|exact Hword]. }
  rewrite (sub_plain uni_alnum _ _ m Hplain Hs).
  destruct (f_write_error (fs (path_join dirpath filename))) as [reason|] eqn:Hw.
  { cbn [fst]. intros _ H. congruence. }
  cbn [fst]. unfold content_of. rewrite update_same.
  cbn [f_read_error f_data f_write_error]. intros _ _.
  destruct (rewritten_search uni_alnum disjoint _ m
              (expected_for dirpath filename (group1 m)) Hs
              (universal_newlines_clean _) Hne Hword) as [Hun Hsearch].
  rewrite Hun, Hsearch. intros H. injection H as <-. cbn [group1 m_id].
  apply expected_twice.
Qed.

(** The file that two visits leave is left alone by the third. *)
Lemma quiet_after_two dirpath filename fl :
  (handled dirpath filename ->
   forallb (is_word uni_alnum) (basename dirpath) = true) ->
  quiet uni_alnum dirpath filename
    (file_after uni_alnum dirpath filename false
       (file_after uni_alnum dirpath filename false fl)).
Proof.
  intros Hwordf. unfold file_after at 2.
  rewrite <- (proj2 (visit_local uni_alnum dirpath filename false
                       (fst (fst (visit uni_alnum dirpath filename false
                                    (fun _ => fl)))))).
  apply visit_quiet_when_fixed; [exact Hwordf|].
  intros m Hh. apply visit_leaves_fixed; [exact Hh|apply Hwordf; exact Hh].
Qed.

End Twice.

(** X7: with folder names made of word characters only, the second run
    in apply mode reaches a state that no further run changes: a third
    run writes nothing and prints warnings at most. *)
Theorem X7_third_apply_changes_nothing
  uni_alnum tree root_dir fs fs1 out1 fs2 out2 :
  classes_disjoint uni_alnum ->
  NoDup (map path_of (visits (os_walk root_dir tree))) ->
  (forall v, In v (visits (os_walk root_dir tree)) ->
     handled (fst v) (snd v) ->
     forallb (is_word uni_alnum) (basename (fst v)) = true) ->
  fix_package_names uni_alnum tree root_dir false fs = (fs1, out1, inr tt) ->
  fix_package_names uni_alnum tree root_dir false fs1 = (fs2, out2, inr tt) ->
  exists out3,
    fix_package_names uni_alnum tree root_dir false fs2 = (fs2, out3, inr tt) /\
    Forall is_warning out3.
Proof.
  intros Hd Hnd Hword Hrun1 Hrun2. unfold fix_package_names in *.
  rewrite walk_loop_run in Hrun1. injection Hrun1 as Hfs1 _.
  rewrite walk_loop_run in Hrun2. injection Hrun2 as Hfs2 _.
  rewrite walk_loop_run.
  destruct (run_all_settled uni_alnum (visits (os_walk root_dir tree)) fs2)
    as [Hsame Hwarn].
  - intros v Hv. rewrite <- Hfs2.
    rewrite (proj2 (run_all_independent uni_alnum false _ Hnd fs1) v Hv).
    rewrite <- Hfs1.
    rewrite (proj2 (run_all_independent uni_alnum false _ Hnd fs) v Hv).
    apply quiet_after_two; [exact Hd|]. apply Hword. exact Hv.
  - eexists. split; [|exact Hwarn]. rewrite Hsame at 1. reflexivity.
Qed.

Lemma X7_witness :
  exists out3,
    fix_package_names ascii_only suffix_tree (lit "proj") false
      (fst (fst (fix_package_names ascii_only suffix_tree (lit "proj") false
         (fst (fst (fix_package_names ascii_only suffix_tree (lit "proj") false
                      suffix_store))))))
    = (fst (fst (fix_package_names ascii_only suffix_tree (lit "proj") false
         (fst (fst (fix_package_names ascii_only suffix_tree (lit "proj") false
                      suffix_store))))), out3, inr tt) /\
    Forall is_warning out3.
Proof.
  apply (X7_third_apply_changes_nothing ascii_only suffix_tree (lit "proj")
           suffix_store
           (fst (fst (fix_package_names ascii_only suffix_tree (lit "proj")
                        false suffix_store)))
           (snd (fst (fix_package_names ascii_only suffix_tree (lit "proj")
                        false suffix_store)))
           _
           (snd (fst (fix_package_names ascii_only suffix_tree (lit "proj") false
              (fst (fst (fix_package_names ascii_only suffix_tree (lit "proj")
                           false suffix_store))))))
           ascii_only_disjoint).
  - vm_compute. repeat constructor; simpl; intuition discriminate.
  - intros v Hv _. vm_compute in Hv.
    repeat (destruct Hv as [<-|Hv]; [vm_compute; reflexivity|]).
    destruct Hv.
  - unfold fix_package_names. rewrite walk_loop_run. reflexivity.
  - unfold fix_package_names. rewrite walk_loop_run. reflexivity.
Defined.

(** ** What the pattern finds *)

(** The white space of a match is white space. *)
Lemma spaces_then_word_spaces uni_alnum s : forall k ws id post,
  k <= length (fst (span is_space s)) ->
  spaces_then_word uni_alnum k s = Some (ws, id, post) ->
  ws <> [] /\ forallb is_space ws = true.
Proof.
  induction k as [|k IH]; intros ws id post Hk; [discriminate|].
  rewrite spaces_then_word_S.
  destruct (span (is_word uni_alnum) (skipn (S k) s)) as [id' post'].
  destruct (is_empty id'); [apply IH; lia|].
  remember (firstn (S k) s) as w eqn:Hw.
  intros H. injection H as <- <- <-.
  pose proof (span_app is_space s) as Happ.
  pose proof (span_fst_all is_space s) as Hall.
  destruct (span is_space s) as [sp r]. cbn [fst snd] in *.
  subst s w. rewrite firstn_app.
  replace (S k - length sp) with 0 by lia. rewrite firstn_O, app_nil_r.
  split.
  - destruct sp as [|c sp]; [simpl in Hk; lia|]. discriminate.
  - rewrite forallb_forall in *. intros c Hc. apply Hall.
    rewrite <- (firstn_skipn (S k) sp). apply in_or_app. left. exact Hc.
Qed.

Lemma match_here_spaces uni_alnum s ws id post :
  match_here uni_alnum s = Some (ws, id, post) ->
  ws <> [] /\ forallb is_space ws = true.
Proof.
  unfold match_here. destruct (startswith s keyword); [|discriminate].
  apply spaces_then_word_spaces. apply Nat.le_refl.
Qed.

Lemma search_from_spaces uni_alnum s : forall bol m,
  search_from uni_alnum bol s = Some m ->
  m_ws m <> [] /\ forallb is_space (m_ws m) = true.
Proof.
  induction s as [|c s IH]; intros bol m; rewrite search_from_eq.
  - destruct bol; simpl; discriminate.
  - destruct (if bol then match_here uni_alnum (c :: s) else None)
      as [[[ws id] post]|] eqn:Hm.
    + destruct bol; [|discriminate]. intros H. injection H as <-.
      cbn [m_ws]. exact (match_here_spaces uni_alnum _ _ _ _ Hm).
    + destruct (search_from uni_alnum (N.eqb c LF) s) as [m'|] eqn:Hs';
        [|discriminate].
      intros H. injection H as <-. cbn [m_ws]. exact (IH _ _ Hs').
Qed.

(** No match: the pattern matches at no line start. *)
Lemma search_from_none uni_alnum s : forall bol,
  search_from uni_alnum bol s = None ->
  forall a b, s = a ++ b -> starts_line bol a = true ->
    match_here uni_alnum b = None.
Proof.
  induction s as [|c s IH]; intros bol; rewrite search_from_eq.
  - intros H a b Hab Ha. symmetry in Hab. apply app_eq_nil in Hab.
    destruct Hab as [-> ->]. unfold starts_line in Ha. simpl in Ha. subst bol.
    destruct (match_here uni_alnum []) as [[[ws id] post]|]; [discriminate|].
    reflexivity.
  - destruct (if bol then match_here uni_alnum (c :: s) else None)
      as [[[ws id] post]|] eqn:Hm; [discriminate|].
    destruct (search_from uni_alnum (N.eqb c LF) s) as [m'|] eqn:Hs';
      [discriminate|].
    intros _ a b Hab Ha. destruct a as [|x a].
    + simpl in Hab. subst b. unfold starts_line in Ha. simpl in Ha. subst bol.
      exact Hm.
    + simpl in Hab. injection Hab as <- Hab. rewrite starts_line_cons in Ha.
      exact (IH _ Hs' a b Hab Ha).
Qed.

Section Found.

Variable uni_alnum : N -> bool.
Hypothesis disjoint : classes_disjoint uni_alnum.

Lemma match_here_complete ws id post :
  ws <> [] -> forallb is_space ws = true ->
  id <> [] -> forallb (is_word uni_alnum) id = true ->
  stops (is_word uni_alnum) post = true ->
  match_here uni_alnum (keyword ++ ws ++ id ++ post) = Some (ws, id, post).
Proof.
  intros Hws Hsp Hid Hw Hst. unfold match_here.
  rewrite startswith_app.
  rewrite skipn_app, skipn_all, Nat.sub_diag. cbn [skipn app].
  assert (Hstop : stops is_space (id ++ post) = true).
  { destruct id as [|c id]; [congruence|]. simpl in *.
    apply andb_true_iff in Hw. destruct Hw as [Hc _].
    rewrite (word_not_space uni_alnum disjoint c Hc). reflexivity. }
  rewrite (span_exact is_space ws (id ++ post) Hsp Hstop). cbn [fst].
  destruct (length ws) as [|k] eqn:Hl.
  { destruct ws; [congruence|discriminate]. }
  rewrite spaces_then_word_S. rewrite <- Hl.
  rewrite skipn_app, skipn_all, Nat.sub_diag. cbn [skipn app].
  rewrite (span_exact (is_word uni_alnum) id post Hw Hst).
  rewrite firstn_app, firstn_all, Nat.sub_diag, firstn_O, app_nil_r.
  destruct id as [|d id]; [congruence|]. reflexivity.
Qed.

(** A match of the pattern at a line start, before which it matches at
    no line start, is what the search finds. *)
Lemma search_from_complete pre : forall bol ws id post,
  starts_line bol pre = true ->
  ws <> [] -> forallb is_space ws = true ->
  id <> [] -> forallb (is_word uni_alnum) id = true ->
  stops (is_word uni_alnum) post = true ->
  (forall a b, pre = a ++ b -> b <> [] -> starts_line bol a = true ->
     matchable uni_alnum (b ++ keyword ++ ws ++ id ++ post) = false) ->
  search_from uni_alnum bol (pre ++ keyword ++ ws ++ id ++ post)
  = Some (mkMatch pre ws id post).
Proof.
  induction pre as [|c pre IH];
    intros bol ws id post Hline Hws Hsp Hid Hw Hst Hfirst;
    rewrite search_from_eq.
  - unfold starts_line in Hline. simpl in Hline. subst bol.
    cbn [app]. rewrite match_here_complete by assumption. reflexivity.
  - change ((c :: pre) ++ keyword ++ ws ++ id ++ post)
      with (c :: (pre ++ keyword ++ ws ++ id ++ post)).
    assert (Hm : (if bol
                  then match_here uni_alnum
                         (c :: pre ++ keyword ++ ws ++ id ++ post)
                  else None) = None).
    { destruct bol; [|reflexivity].
      apply (match_here_none uni_alnum disjoint).
      apply (Hfirst [] (c :: pre)); [reflexivity|discriminate|reflexivity]. }
    rewrite Hm.
    rewrite (IH (N.eqb c LF) ws id post); try assumption.
    + reflexivity.
    + rewrite <- starts_line_cons with (bol := bol). exact Hline.
    + intros a b Hab Hb Ha. apply (Hfirst (c :: a) b).
      * simpl. rewrite Hab. reflexivity.
      * exact Hb.
      * rewrite starts_line_cons. exact Ha.
Qed.

End Found.

(** X8: the search finds no declaration exactly when at no line start
    of the text the keyword is followed by white space and a word
    character. *)
Theorem X8_no_declaration_found uni_alnum content :
  classes_disjoint uni_alnum ->
  (search uni_alnum content = None <->
   forall a b, content = a ++ b -> starts_line true a = true ->
     matchable uni_alnum b = false).
Proof.
  intros Hd. split.
  - intros Hs a b Hab Ha.
    destruct (matchable uni_alnum b) eqn:Hm; [|reflexivity].
    exfalso. apply (matchable_match_here uni_alnum b Hm).
    exact (search_from_none uni_alnum content true Hs a b Hab Ha).
  - intros Hnone.
    destruct (search uni_alnum content) as [m|] eqn:Hs; [|reflexivity].
    exfalso.
    destruct (search_from_sound uni_alnum content true m Hs)
      as (Hc & Hid & Hw & Hst).
    destruct (search_from_spaces uni_alnum content true m Hs) as [Hws Hsp].
    destruct (search_from_first uni_alnum content true m Hs) as [Hline _].
    pose proof (match_here_complete uni_alnum Hd (m_ws m) (m_id m) (m_post m)
                  Hws Hsp Hid Hw Hst) as Hm.
    apply match_here_matchable in Hm; [|exact Hd].
    assert (Heq : group0 m ++ m_post m
                  = keyword ++ m_ws m ++ m_id m ++ m_post m)
      by (unfold group0; rewrite <- !app_assoc; reflexivity).
    rewrite <- Heq in Hm.
    rewrite (Hnone (m_pre m) (group0 m ++ m_post m) Hc Hline) in Hm.
    discriminate.
Qed.

Lemma X8_witness :
  classes_disjoint ascii_only /\
  search ascii_only (lit "// Package core." ++ [LF]) = None /\
  matchable ascii_only (lit "// Package core." ++ [LF]) = false.
Proof.
  assert (Hs : search ascii_only (lit "// Package core." ++ [LF]) = None)
    by (vm_compute; reflexivity).
  split; [exact ascii_only_disjoint|]. split; [exact Hs|].
  apply (proj1 (X8_no_declaration_found ascii_only
                  (lit "// Package core." ++ [LF]) ascii_only_disjoint) Hs
           [] (lit "// Package core." ++ [LF])); reflexivity.
Defined.

(** X9: the search finds the match [m] exactly when the text is a
    prefix that ends a line (or is empty), the keyword, a run of white
    space, a run of word characters that the text after it does not
    continue, and when the keyword followed by white space and a word
    character stands at no earlier line start. *)
Theorem X9_declaration_found uni_alnum content m :
  classes_disjoint uni_alnum ->
  (search uni_alnum content = Some m <->
   content = m_pre m ++ group0 m ++ m_post m /\
   starts_line true (m_pre m) = true /\
   m_ws m <> [] /\ forallb is_space (m_ws m) = true /\
   m_id m <> [] /\ forallb (is_word uni_alnum) (m_id m) = true /\
   stops (is_word uni_alnum) (m_post m) = true /\
   forall a b, m_pre m = a ++ b -> b <> [] -> starts_line true a = true ->
     matchable uni_alnum (b ++ group0 m ++ m_post m) = false).
Proof.
  intros Hd. split.
  - intros Hs.
    destruct (search_from_sound uni_alnum content true m Hs)
      as (Hc & Hid & Hw & Hst).
    destruct (search_from_spaces uni_alnum content true m Hs) as [Hws Hsp].
    destruct (search_from_first uni_alnum content true m Hs) as [Hline Hfirst].
    repeat (split; [assumption|]).
    intros a b Hab Hb Ha.
    destruct (matchable uni_alnum (b ++ group0 m ++ m_post m)) eqn:Hm;
      [|reflexivity].
    exfalso. apply (matchable_match_here uni_alnum _ Hm).
    exact (Hfirst a b Hab Hb Ha).
  - intros (Hc & Hline & Hws & Hsp & Hid & Hw & Hst & Hfirst).
    assert (Heq : group0 m ++ m_post m
                  = keyword ++ m_ws m ++ m_id m ++ m_post m)
      by (unfold group0; rewrite <- !app_assoc; reflexivity).
    rewrite Heq in Hc. rewrite Hc. unfold search.
    rewrite (search_from_complete uni_alnum Hd (m_pre m) true
               (m_ws m) (m_id m) (m_post m)); try assumption.
    + destruct m; reflexivity.
    + intros a b Hab Hb Ha. rewrite <- Heq. exact (Hfirst a b Hab Hb Ha).
Qed.

Lemma X9_witness :
  classes_disjoint ascii_only /\
  search ascii_only (lit "package  widget" ++ [LF] ++ lit "var x = 1" ++ [LF])
  = Some (mkMatch [] [32%N; 32%N] (lit "widget")
            (LF :: lit "var x = 1" ++ [LF])) /\
  forallb (is_word ascii_only) (lit "widget") = true.
Proof.
  assert (Hs : search ascii_only
                 (lit "package  widget" ++ [LF] ++ lit "var x = 1" ++ [LF])
               = Some (mkMatch [] [32%N; 32%N] (lit "widget")
                         (LF :: lit "var x = 1" ++ [LF])))
    by (vm_compute; reflexivity).
  split; [exact ascii_only_disjoint|]. split; [exact Hs|].
  destruct (proj1 (X9_declaration_found ascii_only _ _ ascii_only_disjoint) Hs)
    as (_ & _ & _ & _ & _ & Hw & _).
  exact Hw.
Defined.

(** ** Folder names that end with a backslash *)

Lemma tokenize_trailing s :
  ~ In BACKSLASH s -> tokenize (s ++ [BACKSLASH]) = map Chr s ++ [Dangling].
Proof.
  induction s as [|c s IH]; intros H; [reflexivity|].
  simpl in H. simpl.
  destruct (N.eqb_spec c BACKSLASH) as [->|_]; [tauto|].
  rewrite IH by tauto. reflexivity.
Qed.

Lemma parse_tokens_trailing c s :
  parse_tokens None (map Chr (c :: s) ++ [Dangling]) = inl BadEscape.
Proof.
  revert c. induction s as [|d s IH]; intros c; [reflexivity|].
  change (map Chr (c :: d :: s) ++ [Dangling])
    with (Chr c :: (map Chr (d :: s) ++ [Dangling])).
  cbn [parse_tokens]. rewrite IH. reflexivity.
Qed.

Lemma parse_template_trailing s :
  ~ In BACKSLASH s -> parse_template (s ++ [BACKSLASH]) = inl BadEscape.
Proof.
  intros H. unfold parse_template. rewrite (tokenize_trailing s H).
  destruct s as [|c s]; [reflexivity|].
  rewrite parse_tokens_trailing.
  destruct (dangles (map Chr (c :: s) ++ [Dangling])); reflexivity.
Qed.

(** X10: in a folder whose name ends with its only backslash, preview
    mode announces the update of a file that is not a test file and
    declares a package, and apply mode does not do it: the template is
    refused, the file is left as it is and one warning is printed. *)
Theorem X10_trailing_backslash_is_announced_not_done
  uni_alnum dirpath filename fs m x :
  handled dirpath filename ->
  basename dirpath = x ++ [BACKSLASH] ->
  ~ In BACKSLASH x ->
  endswith filename test_go_ext = false ->
  readable fs (path_join dirpath filename) ->
  search uni_alnum (content_of fs (path_join dirpath filename)) = Some m ->
  visit uni_alnum dirpath filename true fs
  = (fs, [WouldUpdate (path_join dirpath filename) (group1 m)
            (basename dirpath)], inr tt) /\
  visit uni_alnum dirpath filename false fs
  = (fs, [Skipped (path_join dirpath filename) (ReError BadEscape)], inr tt).
Proof.
  intros Hh Hx Hplain Htest Hr Hs.
  assert (Hne : text_eqb (group1 m) (basename dirpath) = false).
  { apply text_eqb_neq. intros Heq.
    destruct (search_from_sound uni_alnum _ true m Hs) as (_ & _ & Hw & _).
    apply (word_text_has_not uni_alnum BACKSLASH (m_id m) eq_refl Hw).
    unfold group1 in Heq. rewrite Heq, Hx.
    apply in_or_app. right. left. reflexivity. }
  rewrite !visit_eq. unfold visit_result.
  rewrite (visit_handled dirpath filename Hh).
  unfold readable in Hr. rewrite Hr, Hs, Htest.
  cbn [expected_package_of]. rewrite Hne.
  split; [reflexivity|].
  unfold sub, replacement. rewrite Hx, app_assoc.
  rewrite parse_template_trailing; [reflexivity|].
  intros Hin. apply in_app_or in Hin. destruct Hin as [Hin|Hin];
    [|exact (Hplain Hin)].
  simpl in Hin. unfold BACKSLASH in Hin. intuition discriminate.
Qed.

Lemma X10_witness :
  visit ascii_only (lit "proj/win\") (lit "main.go") true
    (store_of [(lit "proj/win\/main.go", plain_file (lit "package main"))])
  = (store_of [(lit "proj/win\/main.go", plain_file (lit "package main"))],
     [WouldUpdate (path_join (lit "proj/win\") (lit "main.go"))
        (group1 (mkMatch [] [32%N] (lit "main") []))
        (basename (lit "proj/win\"))], inr tt) /\
  visit ascii_only (lit "proj/win\") (lit "main.go") false
    (store_of [(lit "proj/win\/main.go", plain_file (lit "package main"))])
  = (store_of [(lit "proj/win\/main.go", plain_file (lit "package main"))],
     [Skipped (path_join (lit "proj/win\") (lit "main.go"))
        (ReError BadEscape)], inr tt).
Proof.
  apply (X10_trailing_backslash_is_announced_not_done ascii_only
           (lit "proj/win\") (lit "main.go") _ _ (lit "win")).
  - split; [reflexivity|vm_compute; discriminate].
  - reflexivity.
  - vm_compute. intuition discriminate.
  - reflexivity.
  - reflexivity.
  - vm_compute. reflexivity.
Defined.

(** ** Line ends of a rewritten file *)

(** X11: a file that apply mode reports as updated, in a folder whose
    name holds neither a backslash nor a carriage return, holds no
    carriage return afterwards, and is read back as it was written. *)
Theorem X11_updated_file_has_no_carriage_return
  uni_alnum dirpath filename fs a b :
  ~ In BACKSLASH (basename dirpath) ->
  ~ In CR (basename dirpath) ->
  In (Updated (path_join dirpath filename) a b)
    (snd (fst (visit uni_alnum dirpath filename false fs))) ->
  ~ In CR (f_data (fst (fst (visit uni_alnum dirpath filename false fs))
                     (path_join dirpath filename))) /\
  content_of (fst (fst (visit uni_alnum dirpath filename false fs)))
    (path_join dirpath filename)
  = f_data (fst (fst (visit uni_alnum dirpath filename false fs))
              (path_join dirpath filename)).
Proof.
  intros Hb Hcr. rewrite visit_eq. unfold visit_result.
  destruct (negb (endswith filename go_ext) || is_empty (basename dirpath));
    [intros []|].
  destruct (f_read_error (fs (path_join dirpath filename)));
    [intros [H|[]]; discriminate|].
  destruct (search uni_alnum (content_of fs (path_join dirpath filename)))
    as [m|] eqn:Hs; [|intros []].
  destruct (text_eqb (group1 m) _); [intros []|].
  rewrite (sub_plain uni_alnum _ _ m); [| |exact Hs].
  2:{ apply replacement_plain.
      apply expected_package_plain;
        try (unfold BACKSLASH, UNDERSCORE; discriminate).
      exact Hb. }
  destruct (f_write_error (fs (path_join dirpath filename)));
    [intros [H|[]]; discriminate|].
  intros _. cbn [fst]. unfold content_of. rewrite update_same.
  cbn [f_data].
  assert (Hclean : ~ In CR (m_pre m
                            ++ replacement
                                 (expected_package_of (basename dirpath)
                                    (endswith filename test_go_ext)
                                    (endswith (group1 m) test_suffix))
                            ++ m_post m)).
  { pose proof (universal_newlines_clean
                  (f_data (fs (path_join dirpath filename)))) as Hc.
    fold (content_of fs (path_join dirpath filename)) in Hc.
    rewrite (proj1 (search_from_sound uni_alnum _ true m Hs)) in Hc.
    intros Hin. apply in_app_or in Hin. destruct Hin as [Hin|Hin].
    { apply Hc. apply in_or_app. left. exact Hin. }
    apply in_app_or in Hin. destruct Hin as [Hin|Hin].
    - unfold replacement in Hin. apply in_app_or in Hin.
      destruct Hin as [Hin|Hin].
      + simpl in Hin. unfold CR in Hin. intuition discriminate.
      + revert Hin. apply expected_package_plain;
          try (unfold CR, UNDERSCORE; discriminate). exact Hcr.
    - apply Hc. apply in_or_app. right. apply in_or_app. right. exact Hin. }
  split; [exact Hclean|]. apply universal_newlines_no_cr. exact Hclean.
Qed.

Lemma X11_witness :
  ~ In CR (f_data (fst (fst (visit ascii_only (lit "proj/bar") (lit "main.go")
                               false crlf_store))
                     (path_join (lit "proj/bar") (lit "main.go")))).
Proof.
  apply (X11_updated_file_has_no_carriage_return ascii_only (lit "proj/bar")
           (lit "main.go") crlf_store (lit "foo") (lit "bar")).
  - vm_compute. intuition discriminate.
  - vm_compute. intuition discriminate.
  - vm_compute. left. reflexivity.
Defined.

(** ** The paths of a walk *)

Lemma dir_induction (P : dir -> Prop) :
  (forall filenames subdirs,
     Forall (fun entry => P (snd entry)) subdirs -> P (Dir filenames subdirs)) ->
  forall d, P d.
Proof.
  intros H. fix IH 1. intros [filenames subdirs]. apply H.
  induction subdirs as [|entry subdirs IHs]; constructor.
  - apply IH.
  - exact IHs.
Qed.

Lemma startswith_iff s k : startswith s k = true <-> exists r, s = k ++ r.
Proof.
  split.
  - intros H. exists (skipn (length k) s). apply startswith_split. exact H.
  - intros [r ->]. apply startswith_app.
Qed.

Lemma plain_name_facts name :
  plain_name name = true -> name <> [] /\ ~ In SLASH name.
Proof.
  unfold plain_name. intros H. apply andb_true_iff in H. destruct H as [Hne Hs].
  split.
  - apply is_empty_false. apply negb_true_iff. exact Hne.
  - intros Hin. rewrite forallb_forall in Hs. apply Hs in Hin.
    rewrite N.eqb_refl in Hin. discriminate.
Qed.

(** A plain name is joined to a directory by appending it to the
    directory as a prefix, [os.path.join(top, "")]. *)
Lemma path_join_plain top name :
  plain_name name = true -> path_join top name = path_join top [] ++ name.
Proof.
  intros H. apply plain_name_facts in H. destruct H as [Hne Hs].
  destruct name as [|c name]; [congruence|].
  unfold path_join. cbn [startswith]. rewrite andb_true_r.
  destruct (N.eqb_spec c SLASH) as [->|_]; [exfalso; apply Hs; left; reflexivity|].
  destruct (is_empty top || endswith top [SLASH]).
  - rewrite app_nil_r. reflexivity.
  - rewrite <- app_assoc. reflexivity.
Qed.

Lemma endswith_plain a name :
  plain_name name = true -> endswith (a ++ name) [SLASH] = false.
Proof.
  intros H. apply plain_name_facts in H. destruct H as [Hne Hs].
  destruct (endswith (a ++ name) [SLASH]) eqn:He; [|reflexivity].
  exfalso. apply endswith_slash in He. destruct He as [b Hb].
  destruct (exists_last Hne) as (name' & z & ->).
  rewrite app_assoc in Hb. apply app_inj_tail in Hb. destruct Hb as [_ ->].
  apply Hs. apply in_or_app. right. left. reflexivity.
Qed.

Lemma dir_prefix_join top name :
  plain_name name = true ->
  path_join (path_join top name) [] = path_join top [] ++ name ++ [SLASH].
Proof.
  intros H. rewrite (path_join_plain top name H).
  unfold path_join at 1. cbn [startswith].
  rewrite (endswith_plain _ name H).
  destruct (plain_name_facts name H) as [Hne _].
  destruct (path_join top [] ++ name) eqn:Hp.
  - apply app_eq_nil in Hp. destruct Hp as [_ Hp]. congruence.
  - cbn [is_empty orb]. rewrite <- Hp, <- app_assoc. reflexivity.
Qed.

Lemma visits_flat_map_in {A} (g : A -> list (text * list text)) l v :
  In v (visits (flat_map g l)) ->
  exists e, In e l /\ In v (visits (g e)).
Proof.
  induction l as [|e l IH]; [intros []|].
  cbn [flat_map]. rewrite visits_app. intros H. apply in_app_or in H.
  destruct H as [H|H].
  - exists e. split; [left; reflexivity|exact H].
  - destruct (IH H) as (e' & He' & Hv). exists e'. split; [right|]; assumption.
Qed.

(** Every path of the walk of a tree of plain names continues the
    directory it starts from. *)
Lemma os_walk_paths d : forall top,
  plain_names d = true ->
  forall v, In v (visits (os_walk top d)) ->
    exists r, path_of v = path_join top [] ++ r.
Proof.
  induction d as [filenames subdirs IH] using dir_induction.
  intros top Hplain v Hv.
  cbn [plain_names] in Hplain. apply andb_true_iff in Hplain.
  destruct Hplain as [Hfiles Hsubs].
  cbn [os_walk] in Hv.
  change ((top, filenames) :: ?l) with ([(top, filenames)] ++ l) in Hv.
  rewrite visits_app in Hv. apply in_app_or in Hv. destruct Hv as [Hv|Hv].
  - unfold visits in Hv. cbn [flat_map fst snd] in Hv. rewrite app_nil_r in Hv.
    apply in_map_iff in Hv. destruct Hv as (f & <- & Hf).
    exists f. unfold path_of. cbn [fst snd]. apply path_join_plain.
    rewrite forallb_forall in Hfiles. apply Hfiles. exact Hf.
  - apply visits_flat_map_in in Hv. destruct Hv as (e & He & Hv).
    rewrite forallb_forall in Hsubs. specialize (Hsubs e He).
    apply andb_true_iff in Hsubs. destruct Hsubs as [Hname Hsub].
    rewrite Forall_forall in IH.
    destruct (IH e He (path_join top (fst e)) Hsub v Hv) as [r Hr].
    exists (fst e ++ [SLASH] ++ r). rewrite Hr.
    rewrite (dir_prefix_join top (fst e) Hname).
    rewrite <- !app_assoc. reflexivity.
Qed.

(** X12: a run over a tree of plain names changes no file whose path
    does not start with the root directory as a prefix,
    [os.path.join(root_dir, "")]. *)
Theorem X12_files_outside_the_root_are_untouched
  uni_alnum tree root_dir dry_run fs q :
  plain_names tree = true ->
  startswith q (path_join root_dir []) = false ->
  fst (fst (fix_package_names uni_alnum tree root_dir dry_run fs)) q = fs q.
Proof.
  intros Hplain Hq. unfold fix_package_names. rewrite walk_loop_run.
  cbn [fst]. apply run_all_frame. intros v Hv _ Heq.
  destruct (os_walk_paths tree root_dir Hplain v Hv) as [r Hr].
  rewrite <- Heq, Hr, startswith_app in Hq. discriminate.
Qed.

Lemma X12_witness :
  plain_names demo_tree = true /\
  startswith (lit "project/core/core.go") (path_join (lit "proj") []) = false /\
  fst (fst (fix_package_names ascii_only demo_tree (lit "proj") false
              demo_store)) (lit "project/core/core.go")
  = demo_store (lit "project/core/core.go").
Proof.
  assert (H1 : plain_names demo_tree = true) by (vm_compute; reflexivity).
  assert (H2 : startswith (lit "project/core/core.go")
                 (path_join (lit "proj") []) = false)
    by (vm_compute; reflexivity).
  split; [exact H1|]. split; [exact H2|].
  exact (X12_files_outside_the_root_are_untouched ascii_only demo_tree
           (lit "proj") false demo_store _ H1 H2).
Defined.

(** ** No path is listed twice *)

Lemma distinct_NoDup l : distinct l = true -> NoDup l.
Proof.
  induction l as [|x l IH]; intros H; [constructor|].
  cbn [distinct] in H. apply andb_true_iff in H. destruct H as [Hx Hl].
  constructor; [|apply IH; exact Hl].
  intros Hin. apply negb_true_iff in Hx.
  assert (Ht : existsb (text_eqb x) l = true).
  { apply existsb_exists. exists x. split; [exact Hin|apply text_eqb_refl]. }
  congruence.
Qed.

(** Texts that agree up to their first slash start with the same
    name. *)
Lemma first_component n1 : forall n2 r1 r2,
  ~ In SLASH n1 -> ~ In SLASH n2 ->
  n1 ++ SLASH :: r1 = n2 ++ SLASH :: r2 -> n1 = n2.
Proof.
  induction n1 as [|c n1 IH]; intros [|d n2] r1 r2 H1 H2 Heq; simpl in *.
  - reflexivity.
  - injection Heq as <- _. exfalso. apply H2. left. reflexivity.
  - injection Heq as -> _. exfalso. apply H1. left. reflexivity.
  - injection Heq as -> Heq. f_equal. apply (IH n2 r1 r2); tauto.
Qed.

Lemma file_paths_NoDup top filenames :
  forallb plain_name filenames = true -> NoDup filenames ->
  NoDup (map path_of (map (pair top) filenames)).
Proof.
  intros Hplain Hnd. induction filenames as [|f l IH]; [constructor|].
  cbn [forallb] in Hplain. apply andb_true_iff in Hplain.
  destruct Hplain as [Hf Hl]. inversion Hnd as [|? ? Hnotin Hnd']; subst.
  cbn [map]. constructor; [|apply IH; assumption].
  intros Hin. apply in_map_iff in Hin. destruct Hin as (v & Hv & Hin).
  apply in_map_iff in Hin. destruct Hin as (g & <- & Hg).
  unfold path_of in Hv. cbn [fst snd] in Hv.
  rewrite forallb_forall in Hl.
  rewrite (path_join_plain top g (Hl g Hg)), (path_join_plain top f Hf) in Hv.
  apply app_inv_head in Hv. subst g. exact (Hnotin Hg).
Qed.

Lemma subdir_paths_NoDup top subdirs :
  Forall (fun entry => forall top', plain_names (snd entry) = true ->
            distinct_names (snd entry) = true ->
            NoDup (map path_of (visits (os_walk top' (snd entry))))) subdirs ->
  forallb (fun entry => plain_name (fst entry) && plain_names (snd entry))
    subdirs = true ->
  forallb (fun entry => distinct_names (snd entry)) subdirs = true ->
  NoDup (map fst subdirs) ->
  NoDup (map path_of
           (visits (flat_map (fun entry =>
                      os_walk (path_join top (fst entry)) (snd entry))
                      subdirs))).
Proof.
  induction subdirs as [|e l IHl]; intros IH Hplain Hdist Hnd; [constructor|].
  inversion IH as [|? ? IHe IHrest]; subst.
  cbn [forallb] in Hplain, Hdist.
  apply andb_true_iff in Hplain. destruct Hplain as [He Hl].
  apply andb_true_iff in He. destruct He as [Hname Hsub].
  apply andb_true_iff in Hdist. destruct Hdist as [Hde Hdl].
  cbn [map] in Hnd. inversion Hnd as [|? ? Hnotin Hnd']; subst.
  cbn [flat_map]. rewrite visits_app, map_app.
  apply NoDup_app.
  - apply IHe; assumption.
  - apply IHl; assumption.
  - intros p Hp1 Hp2.
    apply in_map_iff in Hp1. destruct Hp1 as (v1 & <- & Hv1).
    apply in_map_iff in Hp2. destruct Hp2 as (v2 & Heq & Hv2).
    apply visits_flat_map_in in Hv2. destruct Hv2 as (e' & He' & Hv2).
    rewrite forallb_forall in Hl. specialize (Hl e' He').
    apply andb_true_iff in Hl. destruct Hl as [Hname' Hsub'].
    destruct (os_walk_paths (snd e) (path_join top (fst e)) Hsub v1 Hv1)
      as [r1 Hr1].
    destruct (os_walk_paths (snd e') (path_join top (fst e')) Hsub' v2 Hv2)
      as [r2 Hr2].
    rewrite Hr1, Hr2 in Heq.
    rewrite (dir_prefix_join top (fst e) Hname) in Heq.
    rewrite (dir_prefix_join top (fst e') Hname') in Heq.
    rewrite <- !app_assoc in Heq. apply app_inv_head in Heq.
    apply Hnotin.
    rewrite (first_component (fst e) (fst e') r1 r2
               (proj2 (plain_name_facts _ Hname))
               (proj2 (plain_name_facts _ Hname')) (eq_sym Heq)).
    apply in_map. exact He'.
Qed.

(** X13: the walk of a tree whose names are not empty and hold no
    separator, and no directory of which holds two entries of the same
    name, lists no path twice. *)
Theorem X13_walk_lists_no_path_twice tree root_dir :
  plain_names tree = true -> distinct_names tree = true ->
  NoDup (map path_of (visits (os_walk root_dir tree))).
Proof.
  revert root_dir.
  induction tree as [filenames subdirs IH] using dir_induction.
  intros top Hplain Hdist.
  cbn [plain_names] in Hplain. apply andb_true_iff in Hplain.
  destruct Hplain as [Hfiles Hsubs].
  cbn [distinct_names] in Hdist. apply andb_true_iff in Hdist.
  destruct Hdist as [Hnames Hdsubs]. apply distinct_NoDup in Hnames.
  cbn [os_walk].
  change ((top, filenames) :: ?l) with ([(top, filenames)] ++ l).
  rewrite visits_app, map_app.
  replace (visits [(top, filenames)]) with (map (pair top) filenames)
    by (unfold visits; cbn [flat_map fst snd]; rewrite app_nil_r; reflexivity).
  apply NoDup_app.
  - apply file_paths_NoDup; [exact Hfiles|].
    exact (NoDup_app_remove_r _ _ Hnames).
  - apply subdir_paths_NoDup; try assumption.
    exact (NoDup_app_remove_l _ _ Hnames).
  - intros p Hp1 Hp2.
    apply in_map_iff in Hp1. destruct Hp1 as (v1 & <- & Hv1).
    apply in_map_iff in Hv1. destruct Hv1 as (f & <- & Hf).
    apply in_map_iff in Hp2. destruct Hp2 as (v2 & Heq & Hv2).
    apply visits_flat_map_in in Hv2. destruct Hv2 as (e & He & Hv2).
    rewrite forallb_forall in Hsubs. specialize (Hsubs e He).
    apply andb_true_iff in Hsubs. destruct Hsubs as [Hname Hsub].
    destruct (os_walk_paths (snd e) (path_join top (fst e)) Hsub v2 Hv2)
      as [r Hr].
    rewrite Hr, (dir_prefix_join top (fst e) Hname) in Heq.
    unfold path_of in Heq. cbn [fst snd] in Heq.
    rewrite forallb_forall in Hfiles.
    rewrite (path_join_plain top f (Hfiles f Hf)) in Heq.
    rewrite <- !app_assoc in Heq. apply app_inv_head in Heq.
    apply (proj2 (plain_name_facts f (Hfiles f Hf))).
    rewrite <- Heq. apply in_or_app. right. left. reflexivity.
Qed.

Lemma X13_witness :
  NoDup (map path_of (visits (os_walk (lit "proj") demo_tree))).
Proof.
  apply (X13_walk_lists_no_path_twice demo_tree (lit "proj"));
    vm_compute; reflexivity.
Defined.

(** ** Preview after apply *)

(** A visit changes the content of a file at most, not whether it can
    be opened. *)
Lemma visit_flags uni_alnum dirpath filename dry_run fs q :
  f_read_error (fst (fst (visit uni_alnum dirpath filename dry_run fs)) q)
  = f_read_error (fs q) /\
  f_write_error (fst (fst (visit uni_alnum dirpath filename dry_run fs)) q)
  = f_write_error (fs q).
Proof.
  destruct (text_eq_dec q (path_join dirpath filename)) as [->|Hq].
  - rewrite visit_eq. unfold visit_result.
    destruct (negb (endswith filename go_ext) || is_empty (basename dirpath));
      [split; reflexivity|].
    destruct (f_read_error (fs (path_join dirpath filename))) eqn:Hr;
      [cbn [fst]; rewrite Hr; split; reflexivity|].
    destruct (search uni_alnum _); [|cbn [fst]; rewrite Hr; split; reflexivity].
    destruct (text_eqb _ _); [cbn [fst]; rewrite Hr; split; reflexivity|].
    destruct dry_run; [cbn [fst]; rewrite Hr; split; reflexivity|].
    destruct (sub uni_alnum _ _);
      [cbn [fst]; rewrite Hr; split; reflexivity|].
    destruct (f_write_error (fs (path_join dirpath filename))) eqn:Hw;
      [cbn [fst]; rewrite Hr, Hw; split; reflexivity|].
    cbn [fst]. rewrite update_same. split; reflexivity.
  - rewrite visit_other by exact Hq. split; reflexivity.
Qed.

Lemma run_all_flags uni_alnum dry_run q l : forall fs,
  f_read_error (fst (run_all (visit_of uni_alnum dry_run) l fs) q)
  = f_read_error (fs q) /\
  f_write_error (fst (run_all (visit_of uni_alnum dry_run) l fs) q)
  = f_write_error (fs q).
Proof.
  induction l as [|v l IH]; intros fs; [split; reflexivity|].
  cbn [run_all fst].
  change (visit_of uni_alnum dry_run v fs)
    with (visit uni_alnum (fst v) (snd v) dry_run fs).
  destruct (IH (fst (fst (visit uni_alnum (fst v) (snd v) dry_run fs))))
    as [Hr Hw].
  destruct (visit_flags uni_alnum (fst v) (snd v) dry_run fs q) as [Hr' Hw'].
  split; congruence.
Qed.

(** A file that apply mode leaves alone has no update to announce. *)
Lemma quiet_preview uni_alnum dirpath filename fl :
  quiet uni_alnum dirpath filename fl ->
  (handled dirpath filename -> ~ In BACKSLASH (basename dirpath)) ->
  (f_read_error fl = None -> f_write_error fl = None) ->
  Forall is_warning (lines_for uni_alnum dirpath filename true fl).
Proof.
  intros Hq Hb Hw.
  destruct (Hq (fun _ => fl) eq_refl) as (out & Hv & Hout).
  pose proof (lines_confirmed uni_alnum dirpath filename fl Hb Hw) as Hl.
  unfold lines_for in Hl at 1. rewrite Hv in Hl. cbn [fst snd] in Hl.
  subst out. rewrite Forall_forall in *. intros m Hm.
  specialize (Hout (confirmed m) (in_map confirmed _ m Hm)).
  destruct m; simpl in *; tauto.
Qed.

(** X14: after a run in apply mode, a run in preview mode announces no
    update: it prints warnings at most, when the walk lists no path
    twice, every file that can be read can be written, and every Go file
    lies in a folder whose name is made of word characters only and, for
    a test file, does not end with [_test]. *)
Theorem X14_preview_after_apply_announces_nothing
  uni_alnum tree root_dir fs fs1 out1 :
  classes_disjoint uni_alnum ->
  NoDup (map path_of (visits (os_walk root_dir tree))) ->
  (forall v, In v (visits (os_walk root_dir tree)) ->
     handled (fst v) (snd v) ->
     stable_name uni_alnum (basename (fst v)) (snd v)) ->
  (forall v, In v (visits (os_walk root_dir tree)) ->
     readable fs (path_of v) -> writable fs (path_of v)) ->
  fix_package_names uni_alnum tree root_dir false fs = (fs1, out1, inr tt) ->
  Forall is_warning
    (snd (fst (fix_package_names uni_alnum tree root_dir true fs1))).
Proof.
  intros Hd Hnd Hst Hw Hrun. unfold fix_package_names in *.
  rewrite walk_loop_run in Hrun. injection Hrun as Hfs1 _.
  rewrite walk_loop_run. cbn [fst snd].
  rewrite (proj1 (run_all_independent uni_alnum true _ Hnd fs1)).
  rewrite Forall_forall. intros m Hm. apply in_flat_map in Hm.
  destruct Hm as (v & Hv & Hm).
  assert (Hquiet : Forall is_warning
                     (lines_for uni_alnum (fst v) (snd v) true
                        (fs1 (path_of v)))).
  { apply quiet_preview.
    - rewrite <- Hfs1. apply run_all_quiet; assumption.
    - intros Hh. apply (word_text_has_not uni_alnum); [reflexivity|].
      apply (Hst v Hv Hh).
    - rewrite <- Hfs1.
      destruct (run_all_flags uni_alnum false (path_of v)
                  (visits (os_walk root_dir tree)) fs) as [Hr' Hw'].
      rewrite Hr', Hw'. apply Hw. exact Hv. }
  rewrite Forall_forall in Hquiet. exact (Hquiet m Hm).
Qed.

Lemma X14_witness :
  Forall is_warning
    (snd (fst (fix_package_names ascii_only demo_tree (lit "proj") true
                 (fst (fst (fix_package_names ascii_only demo_tree (lit "proj")
                              false demo_store)))))).
Proof.
  apply (X14_preview_after_apply_announces_nothing ascii_only demo_tree
           (lit "proj") demo_store _
           (snd (fst (fix_package_names ascii_only demo_tree (lit "proj") false
                        demo_store)))
           ascii_only_disjoint).
  - vm_compute. repeat constructor; simpl; intuition discriminate.
  - intros v Hv _. vm_compute in Hv.
    repeat (destruct Hv as [<-|Hv];
            [split; [vm_compute; reflexivity|vm_compute; intros; congruence]|]).
    destruct Hv.
  - intros v Hv. vm_compute in Hv.
    repeat (destruct Hv as [<-|Hv]; [vm_compute; intros; congruence|]).
    destruct Hv.
  - unfold fix_package_names. rewrite walk_loop_run. reflexivity.
Defined.

(** ** What the messages say *)

Lemma visit_sound_lines uni_alnum v walk dry_run fs :
  In v walk ->
  Forall (sound_message uni_alnum dry_run walk)
    (snd (fst (visit uni_alnum (fst v) (snd v) dry_run fs))).
Proof.
  intros Hv. rewrite visit_eq. unfold visit_result.
  destruct (negb (endswith (snd v) go_ext) || is_empty (basename (fst v)))
    eqn:Hh; [constructor|].
  assert (Hhandled : handled (fst v) (snd v)).
  { apply orb_false_iff in Hh. destruct Hh as [Hgo Hdir].
    apply negb_false_iff in Hgo. apply is_empty_false in Hdir.
    split; assumption. }
  destruct (f_read_error (fs (path_join (fst v) (snd v))));
    [repeat constructor|].
  destruct (search uni_alnum (content_of fs (path_join (fst v) (snd v))))
    as [m|] eqn:Hs; [|constructor].
  fold (expected_for (fst v) (snd v) (group1 m)).
  destruct (text_eqb (group1 m) (expected_for (fst v) (snd v) (group1 m)))
    eqn:He; [constructor|].
  assert (Hrep : reports_mismatch uni_alnum walk (path_join (fst v) (snd v))
                   (group1 m) (expected_for (fst v) (snd v) (group1 m))).
  { destruct (search_from_sound uni_alnum _ true m Hs) as (_ & Hid & Hw & _).
    split; [apply text_eqb_neq; exact He|]. split; [exact Hid|].
    split; [exact Hw|]. exists v. repeat split; try assumption; apply Hhandled. }
  destruct dry_run.
  - constructor; [|constructor]. split; [reflexivity|exact Hrep].
  - destruct (sub uni_alnum _ _); [repeat constructor|].
    destruct (f_write_error (fs (path_join (fst v) (snd v))));
      [repeat constructor|].
    constructor; [|constructor]. split; [reflexivity|exact Hrep].
Qed.

(** X15: every update message of a run, announced or done, names a
    listed Go file in a named folder, gives as old identifier a
    non-empty run of word characters and as new identifier the one
    expected for that file, which differs from the old one; preview
    prints no update done and apply mode no update to do. *)
Theorem X15_update_messages_report_mismatches
  uni_alnum tree root_dir dry_run fs :
  Forall (sound_message uni_alnum dry_run (visits (os_walk root_dir tree)))
    (snd (fst (fix_package_names uni_alnum tree root_dir dry_run fs))).
Proof.
  unfold fix_package_names. rewrite walk_loop_run. cbn [fst snd].
  assert (Hsub : forall l, incl l (visits (os_walk root_dir tree)) ->
            forall fs0,
              Forall (sound_message uni_alnum dry_run
                        (visits (os_walk root_dir tree)))
                (snd (run_all (visit_of uni_alnum dry_run) l fs0))).
  { induction l as [|v l IH]; intros Hincl fs0; [constructor|].
    cbn [run_all snd]. apply Forall_app. split.
    - apply visit_sound_lines. apply Hincl. left. reflexivity.
    - apply IH. intros w Hw. apply Hincl. right. exact Hw. }
  apply Hsub. apply incl_refl.
Qed.

(** An update that apply mode does is one that preview mode announces
    for the same file. *)
Lemma lines_announced uni_alnum dirpath filename fl p a b :
  In (Updated p a b) (lines_for uni_alnum dirpath filename false fl) ->
  In (WouldUpdate p a b) (lines_for uni_alnum dirpath filename true fl).
Proof.
  unfold lines_for. rewrite !visit_eq. unfold visit_result. cbn beta.
  destruct (negb (endswith filename go_ext) || is_empty (basename dirpath));
    [intros []|].
  destruct (f_read_error fl); [intros [H|[]]; discriminate|].
  destruct (search uni_alnum _) as [m|]; [|intros []].
  destruct (text_eqb (group1 m) _); [intros []|].
  destruct (sub uni_alnum _ _); [intros [H|[]]; discriminate|].
  destruct (f_write_error fl); [intros [H|[]]; discriminate|].
  cbn [fst snd]. intros [H|[]]. injection H as <- <- <-. left. reflexivity.
Qed.

(** X16: apply mode does no update that preview mode does not announce:
    when the walk lists no path twice, every [Updated] message of a run
    in apply mode is a [WouldUpdate] message, for the same path and
    identifiers, of the run in preview mode over the same files. *)
Theorem X16_apply_updates_only_what_preview_announces
  uni_alnum tree root_dir fs p a b :
  NoDup (map path_of (visits (os_walk root_dir tree))) ->
  In (Updated p a b)
    (snd (fst (fix_package_names uni_alnum tree root_dir false fs))) ->
  In (WouldUpdate p a b)
    (snd (fst (fix_package_names uni_alnum tree root_dir true fs))).
Proof.
  intros Hnd. unfold fix_package_names. rewrite !walk_loop_run.
  cbn [fst snd].
  rewrite (proj1 (run_all_independent uni_alnum false _ Hnd fs)).
  rewrite (proj1 (run_all_independent uni_alnum true _ Hnd fs)).
  intros Hin. apply in_flat_map in Hin. destruct Hin as (v & Hv & Hin).
  apply in_flat_map. exists v. split; [exact Hv|].
  apply lines_announced. exact Hin.
Qed.

Lemma X16_witness :
  In (WouldUpdate (lit "proj/widgets/helper_test.go") (lit "widget")
        (lit "widgets"))
    (snd (fst (fix_package_names ascii_only demo_tree (lit "proj") true
                 demo_store))).
Proof.
  apply (X16_apply_updates_only_what_preview_announces ascii_only demo_tree
           (lit "proj") demo_store).
  - vm_compute. repeat constructor; simpl; intuition discriminate.
  - vm_compute. right. right. left. reflexivity.
Defined.
